(** * Car marketplace backend: the listing pipeline of [main.py] and [schemas.py]

    A shallow embedding of the two request handlers [create_vehicle] and
    [list_vehicles], of the serializer [serialize_vehicle] and of the
    [Vehicle] schema, followed by the properties of the specification that
    concern them.

    Python values are a small universe [pyval]; dictionaries are finite maps
    with string keys (the order of the keys of a dictionary is not modelled);
    the handlers run in a state-and-exception monad over a [World] made of
    the files of the process, the counters of the two sources of
    nondeterminism (uuid4 and the disk) and the database. The [database]
    module is not part of the sources: the handlers are written against its
    interface, and a document store following the storage contract of the
    specification implements it. *)

From Stdlib Require Import ZArith NArith Floats Ascii String List.
From stdpp Require Import base option list strings gmap fin_maps pretty.

Local Open Scope string_scope.
Local Open Scope list_scope.
#[local] Set Warnings "-register-all".

(** ** Python values *)

(** [bson.ObjectId]: a 12-byte identifier, kept as the number its bytes spell. *)
Record ObjectId := mkObjectId { oid_value : N }.

Inductive pyval :=
| VNone
| VBool (b : bool)
| VInt (z : Z)
| VFloat (f : float)
| VStr (s : string)
| VList (l : list pyval)
| VObjectId (o : ObjectId)
| VDatetime (micros : Z).

(** Truth value of an object, as tested by [if x] and [x or y]. *)
Definition py_truthy (v : pyval) : bool :=
  match v with
  | VNone => false
  | VBool b => b
  | VInt z => negb (z =? 0)%Z
  | VFloat f => negb (PrimFloat.eqb f 0%float)
  | VStr s => negb (String.eqb s "")
  | VList l => match l with [] => false | _ => true end
  | VObjectId _ => true
  | VDatetime _ => true
  end.

(** ** Hexadecimal rendering ([uuid4().hex], [str(ObjectId)]) *)

Definition hex_digit (n : N) : ascii :=
  match n with
  | 0%N => "0" | 1%N => "1" | 2%N => "2" | 3%N => "3"
  | 4%N => "4" | 5%N => "5" | 6%N => "6" | 7%N => "7"
  | 8%N => "8" | 9%N => "9" | 10%N => "a" | 11%N => "b"
  | 12%N => "c" | 13%N => "d" | 14%N => "e" | _ => "f"
  end%char.

(** The [k] lowest hexadecimal digits of [n], most significant first. *)
Fixpoint hex_digits (k : nat) (n : N) : string :=
  match k with
  | O => ""
  | S k' => hex_digits k' (n / 16)%N +:+ String (hex_digit (n mod 16)%N) ""
  end.

(** [str(oid)]: 24 hexadecimal digits. *)
Definition oid_hex (o : ObjectId) : string := hex_digits 24 (oid_value o).

(** [UUID.hex]: 32 hexadecimal digits of the 128-bit value. *)
Definition uuid_hex (u : N) : string := hex_digits 32 u.

(** ** [os.path] (posixpath) *)

(** [s.rfind(c)]: index of the last occurrence, or -1. *)
Fixpoint rfind_from (i : Z) (c : ascii) (s : string) : Z :=
  match s with
  | EmptyString => (-1)%Z
  | String a s' =>
      let r := rfind_from (i + 1) c s' in
      if (0 <=? r)%Z then r else if Ascii.eqb a c then i else (-1)%Z
  end.

Definition rfind (c : ascii) (s : string) : Z := rfind_from 0 c s.

(** The loop of [genericpath._splitext] that skips the leading dots of the
    file name: [true] as soon as one character in
    [p[filenameIndex:dotIndex]] is not a dot. *)
Fixpoint has_non_dot (p : string) (filenameIndex : nat) (steps : nat) : bool :=
  match steps with
  | O => false
  | S k =>
      match String.get filenameIndex p with
      | Some c =>
          if Ascii.eqb c "." then has_non_dot p (S filenameIndex) k else true
      | None => true
      end
  end.

(** [os.path.splitext(p)] with [sep = '/'], [altsep = None], [extsep = '.']. *)
Definition splitext (p : string) : string * string :=
  let sepIndex := rfind "/" p in
  let dotIndex := rfind "." p in
  if (sepIndex <? dotIndex)%Z then
    let filenameIndex := Z.to_nat (sepIndex + 1) in
    if has_non_dot p filenameIndex (Z.to_nat dotIndex - filenameIndex) then
      (String.substring 0 (Z.to_nat dotIndex) p,
       String.substring (Z.to_nat dotIndex)
                        (String.length p - Z.to_nat dotIndex) p)
    else (p, "")
  else (p, "").

Definition starts_with_sep (s : string) : bool :=
  match s with
  | String c _ => Ascii.eqb c "/"
  | EmptyString => false
  end.

Fixpoint ends_with_sep (s : string) : bool :=
  match s with
  | EmptyString => false
  | String c EmptyString => Ascii.eqb c "/"
  | String _ s' => ends_with_sep s'
  end.

(** [os.path.join(a, b)]. *)
Definition path_join (a b : string) : string :=
  if starts_with_sep b then b
  else if (String.eqb a "" || ends_with_sep a)%bool then a +:+ b
  else a +:+ "/" +:+ b.

(** ** [schemas.py]: the [Vehicle] model *)

Record Vehicle := mkVehicle {
  make : string;
  model : string;
  year : Z;
  price : float;
  description : option string;
  image_urls : list string
}.

(** One entry of a pydantic [ValidationError]. *)
Inductive error_type := greater_than_equal | less_than_equal.

Record ErrorDetails := mkError { loc : string; type : error_type }.

(** [Field(..., ge=1900, le=2100)] on an [int]. *)
Definition check_year (year : Z) : list ErrorDetails :=
  if (year <? 1900)%Z then [mkError "year" greater_than_equal]
  else if (2100 <? year)%Z then [mkError "year" less_than_equal]
  else [].

(** [Field(..., ge=0)] on a [float]: the value must compare [>= 0]. *)
Definition check_price (price : float) : list ErrorDetails :=
  if PrimFloat.leb 0%float price then []
  else [mkError "price" greater_than_equal].

(** [Vehicle(make=..., model=..., year=..., price=..., description=...,
    image_urls=...)]: [make] and [model] are required [str] fields without
    further constraint, [description] is optional, [image_urls] is a list of
    [str]; the errors of all fields are collected in field order. *)
Definition Vehicle_init (make model : string) (year : Z) (price : float)
    (description : option string) (image_urls : list string)
  : list ErrorDetails + Vehicle :=
  match (check_year year ++ check_price price)%list with
  | [] => inr (mkVehicle make model year price description image_urls)
  | errors => inl errors
  end.

Definition opt_str (o : option string) : pyval :=
  match o with
  | Some s => VStr s
  | None => VNone
  end.

(** [vehicle.model_dump()]. *)
Definition model_dump (v : Vehicle) : gmap string pyval :=
  <["image_urls" := VList (VStr <$> image_urls v)]>
  (<["description" := opt_str (description v)]>
  (<["price" := VFloat (price v)]>
  (<["year" := VInt (year v)]>
  (<["model" := VStr (model v)]>
  (<["make" := VStr (make v)]> ∅))))).


(** ** Exceptions, and the monad of request handlers *)

Inductive exn :=
| Error (msg : string)
| ValidationError (errors : list ErrorDetails)
| HTTPException (status_code : Z) (detail : string).

(** A computation over a world [W]: it raises or returns, and in both cases
    leaves a world behind (effects performed before a [raise] persist). *)
Definition Py (W A : Type) : Type := W → (exn + A) * W.

Definition ret {W A} (a : A) : Py W A := λ w, (inr a, w).

Definition raise {W A} (e : exn) : Py W A := λ w, (inl e, w).

Definition bind {W A B} (m : Py W A) (k : A → Py W B) : Py W B :=
  λ w, match m w with
       | (inr a, w') => k a w'
       | (inl e, w') => (inl e, w')
       end.

(** [try: body  except Exception as e: handler(e)]. *)
Definition try_except {W A} (body : Py W A) (handler : exn → Py W A) : Py W A :=
  λ w, match body w with
       | (inr a, w') => (inr a, w')
       | (inl e, w') => handler e w'
       end.

Notation "x <- m ;; k" := (bind m (λ x, k))
  (at level 100, m at next level, right associativity).

(** An uploaded part of the multipart form: the client's file name and the
    bytes of [img.file]. *)
Record UploadFile := mkUpload {
  filename : option string;
  file : list Byte.byte
}.

(** What the operating system does with one [open(path, "wb")] followed by
    [shutil.copyfileobj]: success, failure of [open], or failure of the copy
    after [written] bytes. *)
Inductive io_result :=
| IoOk
| IoOpenError (msg : string)
| IoCopyError (written : nat) (msg : string).

(** The interface of the [database] module that [main.py] imports: an
    exception raised by the module is known by its message. *)
Class Database (DB : Type) := {
  create_document : string → Vehicle → DB → (string + pyval) * DB;
  get_documents :
    string → gmap string pyval → option nat → DB →
    (string + list (gmap string pyval)) * DB
}.

(** The state a request runs in: the files on disk by path, the number of
    [uuid4()] draws and of file writes made so far in the process, and the
    state of the database. *)
Record World (DB : Type) := mkWorld {
  w_fs : gmap string (list Byte.byte);
  w_draws : nat;
  w_writes : nat;
  w_db : DB
}.
Arguments mkWorld {DB} _ _ _ _.
Arguments w_fs {DB} _.
Arguments w_draws {DB} _.
Arguments w_writes {DB} _.
Arguments w_db {DB} _.

(** [d.get(k)] and [d.get(k, default)]. *)
Definition dict_get (d : gmap string pyval) (k : string) : pyval :=
  default VNone (d !! k).

Definition dict_get_default (d : gmap string pyval) (k : string) (dflt : pyval)
  : pyval :=
  default dflt (d !! k).

Section Service.
Context {DB : Type} `{!Database DB}.

(** The process environment: the working directory, the values drawn by
    successive calls of [uuid4()], the outcome of successive writes to the
    disk, and the text that [str] gives for the values and exceptions whose
    rendering the handlers do not depend on. *)
Variable cwd : string.
Variable uuid4 : nat → N.
Variable disk : nat → io_result.
Variable builtin_str : pyval → string.
Variable validation_error_str : list ErrorDetails → string.

Definition UPLOAD_DIR : string := path_join cwd "uploads".

(** [str(v)]. *)
Definition py_str (v : pyval) : string :=
  match v with
  | VNone => "None"
  | VBool true => "True"
  | VBool false => "False"
  | VInt z => pretty z
  | VStr s => s
  | VObjectId o => oid_hex o
  | VFloat _ | VList _ | VDatetime _ => builtin_str v
  end.

(** [str(e)]. *)
Definition exn_str (e : exn) : string :=
  match e with
  | Error msg => msg
  | ValidationError errors => validation_error_str errors
  | HTTPException status_code detail => pretty status_code +:+ ": " +:+ detail
  end.

(** [uuid4().hex]: the next draw. *)
Definition uuid4_hex : Py (World DB) string :=
  λ w, (inr (uuid_hex (uuid4 (w_draws w))),
        mkWorld (w_fs w) (S (w_draws w)) (w_writes w) (w_db w)).

(** [with open(dest_path, "wb") as buffer: shutil.copyfileobj(src, buffer)]:
    the disk decides the outcome of this write attempt. A failed [open]
    leaves the files as they are; a failed copy leaves the bytes written so
    far under [dest_path]. No other path is touched. *)
Definition write_file (dest_path : string) (src : list Byte.byte)
  : Py (World DB) unit :=
  λ w,
    let after fs := mkWorld fs (w_draws w) (S (w_writes w)) (w_db w) in
    match disk (w_writes w) with
    | IoOk => (inr tt, after (<[dest_path := src]> (w_fs w)))
    | IoOpenError msg => (inl (Error msg), after (w_fs w))
    | IoCopyError written msg =>
        (inl (Error msg), after (<[dest_path := take written src]> (w_fs w)))
    end.

(** The calls of the [database] module, in the monad. *)
Definition db_create_document (collection_name : string) (data : Vehicle)
  : Py (World DB) pyval :=
  λ w, match create_document collection_name data (w_db w) with
       | (r, db') =>
           (match r with inl msg => inl (Error msg) | inr v => inr v end,
            mkWorld (w_fs w) (w_draws w) (w_writes w) db')
       end.

Definition db_get_documents (collection_name : string)
    (filter_dict : gmap string pyval) (limit : option nat)
  : Py (World DB) (list (gmap string pyval)) :=
  λ w, match get_documents collection_name filter_dict limit (w_db w) with
       | (r, db') =>
           (match r with inl msg => inl (Error msg) | inr v => inr v end,
            mkWorld (w_fs w) (w_draws w) (w_writes w) db')
       end.

(** *** [main.py] *)

(** [serialize_vehicle(doc)] (lines 72-82). *)
Definition serialize_vehicle (doc : gmap string pyval) : gmap string pyval :=
  <["created_at" := dict_get doc "created_at"]>
  (<["image_urls" := dict_get_default doc "image_urls" (VList [])]>
  (<["description" := dict_get doc "description"]>
  (<["price" := dict_get doc "price"]>
  (<["year" := dict_get doc "year"]>
  (<["model" := dict_get doc "model"]>
  (<["make" := dict_get doc "make"]>
  (<["id" := if py_truthy (dict_get doc "_id")
             then VStr (py_str (dict_get doc "_id"))
             else VNone]> ∅))))))).

(** [list_vehicles()] (lines 85-91). *)
Definition list_vehicles : Py (World DB) (list (gmap string pyval)) :=
  try_except
    (docs <- db_get_documents "vehicle" ∅ None ;;
     ret (serialize_vehicle <$> docs))
    (λ e, raise (HTTPException 500 (exn_str e))).

(** [os.path.splitext(filename)[1] or ".jpg"] (line 108). *)
Definition ext_of (filename : string) : string :=
  let ext := snd (splitext filename) in
  if String.eqb ext "" then ".jpg" else ext.

(** The body of the loop over [images] (lines 107-116); it returns the public
    URL that the loop appends to [image_urls]. *)
Definition save_image (img : UploadFile) : Py (World DB) string :=
  filename <-
    match filename img with
    | Some f => if String.eqb f "" then h <- uuid4_hex ;; ret ("image-" +:+ h)
                else ret f
    | None => h <- uuid4_hex ;; ret ("image-" +:+ h)
    end ;;
  let ext := ext_of filename in
  h <- uuid4_hex ;;
  let safe_name := h +:+ ext in
  let dest_path := path_join UPLOAD_DIR safe_name in
  try_except
    (_ <- write_file dest_path (file img) ;;
     ret ("/uploads/" +:+ safe_name))
    (λ e, raise (HTTPException 500 ("Failed to save image: " +:+ exn_str e))).

(** [for img in images: ...], appending to [image_urls] (lines 106-116). *)
Fixpoint save_images (images : list UploadFile) (image_urls : list string)
  : Py (World DB) (list string) :=
  match images with
  | [] => ret image_urls
  | img :: rest =>
      url <- save_image img ;;
      save_images rest (image_urls ++ [url])%list
  end.

(** The block [image_urls = []; if images: for img in images: ...]
    (lines 104-116). *)
Definition save_uploads (images : option (list UploadFile))
  : Py (World DB) (list string) :=
  match images with
  | None | Some [] => ret []
  | Some imgs => save_images imgs []
  end.

(** [create_vehicle(make, model, year, price, description, images)]
    (lines 95-131): the uploads, then the construction of the [Vehicle],
    outside any [try], then the insert and the response inside a [try]. *)
Definition create_vehicle (make model : string) (year : Z) (price : float)
    (description : option string) (images : option (list UploadFile))
  : Py (World DB) (gmap string pyval) :=
  image_urls <- save_uploads images ;;
  vehicle <-
    match Vehicle_init make model year price description image_urls with
    | inr v => ret v
    | inl errors => raise (ValidationError errors)
    end ;;
  try_except
    (inserted_id <- db_create_document "vehicle" vehicle ;;
     ret (model_dump vehicle ∪ {["id" := inserted_id]}))
    (λ e, raise (HTTPException 500 (exn_str e))).

End Service.

(** ** The document store behind the [database] module *)

Record Mongo := mkMongo {
  outage : option string;
  collections : gmap string (list (gmap string pyval));
  inserted : nat
}.

Definition empty_db : Mongo := mkMongo None ∅ 0.

Section Store.
(** The identifiers the store generates for successive inserts, the creation
    time the adapter records for each of them (if it records one), and the
    engine's equality on values, used by queries. *)
Variable gen_oid : nat → ObjectId.
Variable now : nat → option pyval.
Variable value_eqb : pyval → pyval → bool.

Definition stamp (t : option pyval) (doc : gmap string pyval)
  : gmap string pyval :=
  match t with
  | Some v => <["created_at" := v]> doc
  | None => doc
  end.

Definition doc_matches (filter_dict doc : gmap string pyval) : bool :=
  forallb (λ kv, match doc !! fst kv with
                 | Some v => value_eqb (snd kv) v
                 | None => false
                 end)
          (map_to_list filter_dict).

(** Modelled from the spec: [database.create_document] is not part of the
    sources. Per the storage adapter's contract it serializes the validated
    record to a document, performs a single insert into the named
    collection and returns the store-generated identifier as text; the
    stored document is the record plus that identifier and an optional
    creation timestamp; an unreachable store signals an error and nothing
    is retried. *)
Definition mongo_create_document (collection_name : string) (data : Vehicle)
    (db : Mongo) : (string + pyval) * Mongo :=
  match outage db with
  | Some msg => (inl msg, db)
  | None =>
      let oid := gen_oid (inserted db) in
      let doc :=
        <["_id" := VObjectId oid]> (stamp (now (inserted db)) (model_dump data)) in
      let old := default [] (collections db !! collection_name) in
      (inr (VStr (oid_hex oid)),
       mkMongo None
               (<[collection_name := (old ++ [doc])%list]> (collections db))
               (S (inserted db)))
  end.

(** Modelled from the spec: [database.get_documents] is not part of the
    sources. Per the storage adapter's contract it returns the raw documents
    of the named collection that match the filter, the empty filter meaning
    all documents, each with its generated identifier and all stored fields,
    in insertion order; a limit, when given, keeps the first documents; an
    unreachable store signals an error. *)
Definition mongo_get_documents (collection_name : string)
    (filter_dict : gmap string pyval) (limit : option nat) (db : Mongo)
  : (string + list (gmap string pyval)) * Mongo :=
  match outage db with
  | Some msg => (inl msg, db)
  | None =>
      let docs := default [] (collections db !! collection_name) in
      let found := List.filter (doc_matches filter_dict) docs in
      (inr (match limit with Some n => take n found | None => found end), db)
  end.

Definition mongo_database : Database Mongo :=
  {| create_document := mongo_create_document;
     get_documents := mongo_get_documents |}.

End Store.

(** ** The diagnostics endpoint of [main.py] *)

(** What [hasattr(db, 'name')] and [db.name] find: no such attribute, a
    value, or an exception other than [AttributeError]. *)
Inductive attr_result :=
| NoAttr
| Attr (v : pyval)
| AttrRaises (msg : string).

(** The global [db] of the [database] module, as far as [test_database] uses
    it: the attribute [name] and the answer of [list_collection_names()],
    which raises (with a message) or returns the names. *)
Record DbHandle := mkHandle {
  handle_name : attr_result;
  list_collection_names : string + list string
}.

(** A text is kept as its UTF-8 bytes; a byte [10xxxxxx] continues the
    character begun before it. *)
Definition continues_char (c : ascii) : bool :=
  let n := N_of_ascii c in ((128 <=? n) && (n <? 192))%N.

(** [s[:n]]: the first [n] characters of a text. *)
Fixpoint str_prefix (n : nat) (s : string) : string :=
  match s with
  | EmptyString => EmptyString
  | String c s' =>
      if continues_char c then String c (str_prefix n s')
      else match n with
           | O => EmptyString
           | S n' => String c (str_prefix n' s')
           end
  end.

(** [if os.getenv(k)]: the variable is set to a non-empty text. *)
Definition env_set (environ : gmap string string) (k : string) : bool :=
  match environ !! k with
  | Some s => negb (String.eqb s "")
  | None => false
  end.

(** [test_database()] (lines 35-66), on the module's [db] and the process
    environment. The dictionary [response] is updated in place, so the
    updates made before an exception stay. *)
Definition test_database (db : option DbHandle) (environ : gmap string string)
  : gmap string pyval :=
  let response : gmap string pyval :=
    <["collections" := VList []]>
    (<["connection_status" := VStr "Not Connected"]>
    (<["database_name" := VNone]>
    (<["database_url" := VNone]>
    (<["database" := VStr "❌ Not Available"]>
    (<["backend" := VStr "✅ Running"]> ∅))))) in
  let response :=
    match db with
    | Some d =>
        let response := <["database" := VStr "✅ Available"]> response in
        let response := <["database_url" := VStr "✅ Configured"]> response in
        match handle_name d with
        | AttrRaises msg =>
            <["database" := VStr ("❌ Error: " +:+ str_prefix 50 msg)]>
              response
        | found =>
            let response :=
              <["database_name" := match found with
                                   | Attr v => v
                                   | _ => VStr "✅ Connected"
                                   end]> response in
            let response :=
              <["connection_status" := VStr "Connected"]> response in
            match list_collection_names d with
            | inr collections =>
                <["database" := VStr "✅ Connected & Working"]>
                (<["collections" := VList (VStr <$> take 10 collections)]>
                   response)
            | inl msg =>
                <["database" :=
                    VStr ("⚠️  Connected but Error: " +:+ str_prefix 50 msg)]>
                  response
            end
        end
    | None => <["database" := VStr "⚠️  Available but not initialized"]> response
    end in
  let response :=
    <["database_url" := VStr (if env_set environ "DATABASE_URL"
                              then "✅ Set" else "❌ Not Set")]> response in
  <["database_name" := VStr (if env_set environ "DATABASE_NAME"
                             then "✅ Set" else "❌ Not Set")]> response.

(** ** [schemas.py]: the [User] and [Product] models *)

Module UserModel.

Record User := mkUser {
  name : string;
  email : string;
  address : string;
  age : option Z;
  is_active : bool
}.

(** [Optional[int] = Field(None, ge=0, le=120)]: [None] is not checked. *)
Definition check_age (age : option Z) : list ErrorDetails :=
  match age with
  | None => []
  | Some a =>
      if (a <? 0)%Z then [mkError "age" greater_than_equal]
      else if (120 <? a)%Z then [mkError "age" less_than_equal]
      else []
  end.

(** [User(name=..., email=..., address=..., age=..., is_active=...)]; an
    omitted [age] is [None], an omitted [is_active] is [True]. *)
Definition User_init (name email address : string) (age : option Z)
    (is_active : option bool) : list ErrorDetails + User :=
  match check_age age with
  | [] => inr (mkUser name email address age (default true is_active))
  | errors => inl errors
  end.

End UserModel.

Module ProductModel.

Record Product := mkProduct {
  title : string;
  description : option string;
  price : float;
  category : string;
  in_stock : bool
}.

(** [Product(title=..., description=..., price=..., category=...,
    in_stock=...)]; the price is checked like the price of a [Vehicle]; an
    omitted [description] is [None], an omitted [in_stock] is [True]. *)
Definition Product_init (title : string) (description : option string)
    (price : float) (category : string) (in_stock : option bool)
  : list ErrorDetails + Product :=
  match check_price price with
  | [] => inr (mkProduct title description price category
                         (default true in_stock))
  | errors => inl errors
  end.

End ProductModel.

(** ** An implementation of the [database] interface that records its calls *)

Inductive db_call :=
| CallCreate (collection_name : string) (data : Vehicle)
| CallGet (collection_name : string) (filter_dict : gmap string pyval)
          (limit : option nat).

(** The state is the list of the calls received so far; the answer to a call
    is chosen by its position in that list. *)
Definition recorder (on_create : nat → string + pyval)
    (on_get : nat → string + list (gmap string pyval))
  : Database (list db_call) :=
  {| create_document c d log :=
       (on_create (length log), log ++ [CallCreate c d]);
     get_documents c f l log :=
       (on_get (length log), log ++ [CallGet c f l]) |}.

(** ** Vocabulary of the statements *)

(** [c in s]. *)
Fixpoint occurs (c : ascii) (s : string) : bool :=
  match s with
  | EmptyString => false
  | String a s' => Ascii.eqb a c || occurs c s'
  end.

(** The write fails with the message [msg]. *)
Definition write_fails (r : io_result) (msg : string) : Prop :=
  r = IoOpenError msg ∨ ∃ written, r = IoCopyError written msg.

(** The upload comes without a usable file name. *)
Definition nameless (img : UploadFile) : bool :=
  match filename img with
  | Some f => String.eqb f ""
  | None => true
  end.

(** The keys of a serialized listing. *)
Definition listing_keys : list string :=
  ["id"; "make"; "model"; "year"; "price"; "description"; "image_urls";
   "created_at"].

(** The key of the raw document from which a key of the listing is read. *)
Definition source_key (k : string) : string :=
  if String.eqb k "id" then "_id" else k.

(** The fields that [serialize_vehicle] reads with a plain [doc.get(k)]. *)
Definition passed_through : list string :=
  ["make"; "model"; "year"; "price"; "description"; "created_at"].

(** ** A concrete environment, for running the handlers *)

Module Sample.
Definition cwd : string := "/srv/app".

(** The [n]-th draw of [uuid4()] is the number [n]. *)
Definition uuid4 (n : nat) : N := N.of_nat n.

Definition disk_ok (n : nat) : io_result := IoOk.

(** The disk takes one write, then is full. *)
Definition disk_full_after_one (n : nat) : io_result :=
  match n with
  | O => IoOk
  | S _ => IoCopyError 1 "No space left on device"
  end.

Definition builtin_str (v : pyval) : string := "<value>".

Definition validation_error_str (errors : list ErrorDetails) : string :=
  "validation error for Vehicle".

(** A store that numbers its documents, stamps nothing and compares no
    values. *)
Definition mongo : Database Mongo :=
  mongo_database (λ n, mkObjectId (N.of_nat n)) (λ _, None) (λ _ _, false).

Definition world : World Mongo := mkWorld ∅ 0 0 empty_db.

Definition jpeg : list Byte.byte := [Byte.xff; Byte.xd8; Byte.xff].

Definition photo (name : string) : UploadFile := mkUpload (Some name) jpeg.

Definition create (disk : nat → io_result) :=
  @create_vehicle Mongo mongo cwd uuid4 disk validation_error_str.

Definition save_image (disk : nat → io_result) :=
  @save_image Mongo cwd uuid4 disk validation_error_str.

Definition save_images (disk : nat → io_result) :=
  @save_images Mongo cwd uuid4 disk validation_error_str.

Definition listing :=
  @list_vehicles Mongo mongo builtin_str validation_error_str.
End Sample.

(** * Properties *)

#[local] Arguments uuid_hex : simpl never.
#[local] Arguments oid_hex : simpl never.
#[local] Arguments ext_of : simpl never.
#[local] Arguments path_join : simpl never.
#[local] Arguments UPLOAD_DIR : simpl never.

(** Case analysis on a membership [H : x ∈ [a; b; ...]]: [tac] closes the goal
    for each member, with [x] replaced by it. *)
Ltac for_each_member H tac :=
  repeat (apply elem_of_cons in H as [->|H]; [tac|]);
  apply elem_of_nil in H; contradiction.

(** The same when no member fits: each equation [x = a] is absurd. *)
Ltac no_member H :=
  repeat (apply elem_of_cons in H as [?|H]; [discriminate|]);
  apply elem_of_nil in H; contradiction.

(** ** The schema *)

Section SchemaFacts.
Local Open Scope Z_scope.

Lemma check_year_nil (y : Z) : check_year y = [] ↔ 1900 ≤ y ≤ 2100.
Proof.
  unfold check_year.
  destruct (Z.ltb_spec y 1900), (Z.ltb_spec 2100 y);
    split; intros H'; try discriminate H'; try lia; reflexivity.
Qed.

Lemma check_price_nil (p : float) :
  check_price p = [] ↔ PrimFloat.leb 0%float p = true.
Proof.
  unfold check_price. destruct (PrimFloat.leb 0%float p); split; congruence.
Qed.

(** Validation succeeds exactly when the year and the price are in range,
    and then the record holds the submitted values unchanged. *)
Lemma Vehicle_init_inr mk md y p d urls v :
  Vehicle_init mk md y p d urls = inr v ↔
  (1900 ≤ y ≤ 2100 ∧ PrimFloat.leb 0%float p = true) ∧
  v = mkVehicle mk md y p d urls.
Proof.
  unfold Vehicle_init. split.
  - destruct (check_year y ++ check_price p)%list eqn:E; [|discriminate].
    intros [= <-]. apply app_eq_nil in E as [Ey Ep].
    by rewrite <- check_year_nil, <- check_price_nil.
  - intros [[Hy Hp] ->].
    apply check_year_nil in Hy. apply check_price_nil in Hp.
    by rewrite Hy, Hp.
Qed.

Lemma Vehicle_init_inl mk md y p d urls :
  ¬ (1900 ≤ y ≤ 2100 ∧ PrimFloat.leb 0%float p = true) →
  ∃ errors, Vehicle_init mk md y p d urls = inl errors.
Proof.
  intros Hbad. destruct (Vehicle_init mk md y p d urls) as [errors|v] eqn:E.
  - by exists errors.
  - apply Vehicle_init_inr in E as [Hok _]. contradiction.
Qed.

(** The outcome of validation does not depend on the image list. *)
Lemma Vehicle_init_urls mk md y p d urls urls' errors :
  Vehicle_init mk md y p d urls = inl errors →
  Vehicle_init mk md y p d urls' = inl errors.
Proof.
  unfold Vehicle_init.
  by destruct (check_year y ++ check_price p)%list.
Qed.

(** C3: a year strictly below 1900 or strictly above 2100 fails validation,
    whatever the other fields are, and the errors name the violated bound
    of [year]; the years 1900 and 2100 pass when the other fields are valid,
    that is when the price is not negative. *)
Theorem year_bounds_inclusive mk md (y : Z) p d urls :
  ((y < 1900 ∨ 2100 < y) →
   ∃ errors, Vehicle_init mk md y p d urls = inl errors ∧
             mkError "year" (if y <? 1900 then greater_than_equal
                             else less_than_equal) ∈ errors) ∧
  ((y = 1900 ∨ y = 2100) → PrimFloat.leb 0%float p = true →
   Vehicle_init mk md y p d urls = inr (mkVehicle mk md y p d urls)).
Proof.
  split.
  - intros Hout. unfold Vehicle_init, check_year.
    destruct (Z.ltb_spec y 1900) as [Hlo|Hlo].
    + eexists. split; [reflexivity|]. apply list_elem_of_here.
    + destruct (Z.ltb_spec 2100 y) as [Hhi|Hhi]; [|lia].
      eexists. split; [reflexivity|]. apply list_elem_of_here.
  - intros Hy Hp. apply Vehicle_init_inr. split; [|reflexivity].
    split; [lia|exact Hp].
Qed.

End SchemaFacts.

(** ** Strings: hexadecimal tokens and extensions *)

Section StringFacts.
Local Open Scope Z_scope.

Lemma occurs_app c s t : occurs c (s +:+ t) = occurs c s || occurs c t.
Proof.
  induction s as [|a s IH]; simpl; [done|].
  rewrite IH. by rewrite orb_assoc.
Qed.

Lemma hex_digit_cases (n : N) :
  hex_digit n ∈
    ["0"; "1"; "2"; "3"; "4"; "5"; "6"; "7"; "8"; "9"; "a"; "b"; "c"; "d";
     "e"; "f"]%char.
Proof.
  destruct n as [|p]; [set_solver|].
  do 4 (try destruct p as [p|p|]); simpl; set_solver.
Qed.

Lemma hex_digits_occurs c k n :
  c ∉ ["0"; "1"; "2"; "3"; "4"; "5"; "6"; "7"; "8"; "9"; "a"; "b"; "c"; "d";
       "e"; "f"]%char →
  occurs c (hex_digits k n) = false.
Proof.
  intros Hc. revert n. induction k as [|k IH]; intros n; simpl; [done|].
  rewrite occurs_app, IH. simpl. rewrite orb_false_r.
  destruct (Ascii.eqb_spec (hex_digit (n mod 16)%N) c) as [E|]; [|done].
  exfalso. apply Hc. rewrite <- E. apply hex_digit_cases.
Qed.

Lemma length_append s t :
  String.length (s +:+ t) = (String.length s + String.length t)%nat.
Proof. induction s as [|a s IH]; simpl; [done|]. by rewrite IH. Qed.

Lemma hex_digits_length k n : String.length (hex_digits k n) = k.
Proof.
  revert n. induction k as [|k IH]; intros n; simpl; [done|].
  rewrite length_append, IH. simpl. lia.
Qed.

Lemma rfind_from_lower i c s : 0 ≤ i → -1 ≤ rfind_from i c s.
Proof.
  revert i. induction s as [|a s IH]; intros i Hi; simpl; [lia|].
  specialize (IH (i + 1) ltac:(lia)).
  destruct (Z.leb_spec 0 (rfind_from (i + 1) c s)); [lia|].
  destruct (Ascii.eqb a c); lia.
Qed.

Lemma rfind_from_absent i c s : occurs c s = false → rfind_from i c s = -1.
Proof.
  revert i. induction s as [|a s IH]; intros i; simpl; [done|].
  intros [Ha Hs]%orb_false_elim. rewrite (IH _ Hs). simpl. by rewrite Ha.
Qed.

(** A name without a dot has no extension. *)
Lemma splitext_no_dot p : occurs "." p = false → splitext p = (p, "").
Proof.
  intros Hp. unfold splitext, rfind. rewrite (rfind_from_absent 0 "." p Hp).
  pose proof (rfind_from_lower 0 "/" p ltac:(lia)).
  destruct (Z.ltb_spec (rfind_from 0 "/" p) (-1)); [lia|done].
Qed.

(** The name made up for an upload without a file name gets [".jpg"], like
    the empty name. *)
Lemma ext_of_fallback u : ext_of ("image-" +:+ uuid_hex u) = ".jpg".
Proof.
  unfold ext_of. rewrite splitext_no_dot; [done|].
  rewrite occurs_app. unfold uuid_hex.
  rewrite hex_digits_occurs; [done|].
  intros H. no_member H.
Qed.

(** A non-negative result of [rfind] is an index of the string. *)
Lemma rfind_from_upper i c s :
  0 ≤ rfind_from i c s → i ≤ rfind_from i c s.
Proof.
  revert i. induction s as [|a s IH]; intros i; cbn; [lia|].
  destruct (Z.leb_spec 0 (rfind_from (i + 1) c s)) as [Hr|Hr].
  - intros _. specialize (IH _ Hr). lia.
  - destruct (Ascii.eqb a c); lia.
Qed.

Lemma substring_all s : String.substring 0 (String.length s) s = s.
Proof. induction s as [|a s IH]; cbn; [done|]. by rewrite IH. Qed.

(** No occurrence of [c] lies after the index that [rfind] returns. *)
Lemma rfind_from_suffix c s i (j : nat) :
  0 ≤ i → rfind_from i c s < i + Z.of_nat j →
  occurs c (String.substring j (String.length s - j) s) = false.
Proof.
  revert i j. induction s as [|a s IH]; intros i j Hi; cbn [rfind_from].
  - intros _. by destruct j.
  - destruct j as [|j].
    + rewrite Nat.sub_0_r, substring_all.
      pose proof (rfind_from_upper (i + 1) c s) as Hup.
      specialize (IH (i + 1) 0%nat ltac:(lia)).
      rewrite Nat.sub_0_r, substring_all in IH.
      destruct (Z.leb_spec 0 (rfind_from (i + 1) c s)) as [Hr|Hr]; [lia|].
      cbn [occurs]. destruct (Ascii.eqb a c); [lia|].
      intros _. apply IH. lia.
    + cbn [String.length String.substring Nat.sub].
      specialize (IH (i + 1) j ltac:(lia)).
      destruct (Z.leb_spec 0 (rfind_from (i + 1) c s)) as [Hr|Hr].
      * intros Hlt. apply IH. lia.
      * intros _. apply IH. lia.
Qed.

(** The extension never holds a separator: it starts at the last dot, which
    lies after the last separator. *)
Lemma splitext_ext_no_sep p : occurs "/" (splitext p).2 = false.
Proof.
  unfold splitext, rfind.
  pose proof (rfind_from_lower 0 "/" p ltac:(lia)) as Hsep.
  destruct (Z.ltb_spec (rfind_from 0 "/" p) (rfind_from 0 "." p)) as [Hlt|Hge];
    [|done].
  destruct (has_non_dot _ _ _); [|done]. cbn [snd].
  apply (rfind_from_suffix "/" p 0); lia.
Qed.

Lemma ext_of_no_sep f : occurs "/" (ext_of f) = false.
Proof.
  unfold ext_of. destruct (String.eqb _ ""); [done|].
  apply splitext_ext_no_sep.
Qed.

(** The stored name is a single path component. *)
Lemma safe_name_no_sep u f : occurs "/" (uuid_hex u +:+ ext_of f) = false.
Proof.
  rewrite occurs_app, ext_of_no_sep. unfold uuid_hex.
  rewrite hex_digits_occurs; [done|].
  intros H. no_member H.
Qed.

Lemma starts_with_sep_occurs s : starts_with_sep s = true → occurs "/" s = true.
Proof. destruct s as [|a s]; cbn; [done|]. by intros ->. Qed.

Lemma ends_with_sep_app a b :
  b ≠ "" → ends_with_sep (a +:+ b) = ends_with_sep b.
Proof.
  intros Hb. induction a as [|x a IH]; [done|].
  change (String x a +:+ b) with (String x (a +:+ b)). cbn [ends_with_sep].
  destruct (a +:+ b) eqn:E; [|exact IH].
  destruct a; [contradiction|discriminate E].
Qed.

Lemma UPLOAD_DIR_cases cwd :
  UPLOAD_DIR cwd = cwd +:+ "uploads" ∨ UPLOAD_DIR cwd = cwd +:+ "/uploads".
Proof.
  unfold UPLOAD_DIR, path_join.
  change (starts_with_sep "uploads") with false. cbv iota.
  destruct (String.eqb cwd "" || ends_with_sep cwd); [by left|by right].
Qed.

(** Joining the upload directory and a single component puts one separator
    between them: the file lies directly in the upload directory. *)
Lemma path_join_upload_dir cwd name :
  occurs "/" name = false →
  path_join (UPLOAD_DIR cwd) name = UPLOAD_DIR cwd +:+ "/" +:+ name.
Proof.
  intros Hname. unfold path_join.
  destruct (starts_with_sep name) eqn:Hs.
  { apply starts_with_sep_occurs in Hs. congruence. }
  assert (ends_with_sep (UPLOAD_DIR cwd) = false) as ->.
  { destruct (UPLOAD_DIR_cases cwd) as [-> | ->];
      by rewrite ends_with_sep_app. }
  assert (String.eqb (UPLOAD_DIR cwd) "" = false) as ->; [|done].
  apply String.eqb_neq. intros E. apply (f_equal String.length) in E.
  destruct (UPLOAD_DIR_cases cwd) as [H | H]; rewrite H in E;
    rewrite length_append in E; cbn in E; lia.
Qed.

Lemma ext_of_empty : ext_of "" = ".jpg".
Proof. reflexivity. Qed.

Lemma oid_hex_nonempty o : oid_hex o ≠ "".
Proof.
  intros E. pose proof (hex_digits_length 24 (oid_value o)) as L.
  unfold oid_hex in E. rewrite E in L. discriminate L.
Qed.

End StringFacts.

(** ** The serializer *)

Section SerializerFacts.
Variable builtin_str : pyval → string.

Local Abbreviation serialize := (serialize_vehicle builtin_str).
Local Abbreviation str := (py_str builtin_str).

Lemma serialize_id doc :
  serialize doc !! "id" =
  Some (if py_truthy (dict_get doc "_id") then VStr (str (dict_get doc "_id"))
        else VNone).
Proof. unfold serialize_vehicle. by simplify_map_eq. Qed.

Lemma serialize_image_urls doc :
  serialize doc !! "image_urls" =
  Some (dict_get_default doc "image_urls" (VList [])).
Proof. unfold serialize_vehicle. by simplify_map_eq. Qed.

Lemma serialize_passed_through doc k :
  k ∈ passed_through → serialize doc !! k = Some (dict_get doc k).
Proof.
  unfold passed_through, serialize_vehicle. intros Hk.
  for_each_member Hk ltac:(by simplify_map_eq).
Qed.

Lemma serialize_dom doc : dom (serialize doc) = list_to_set listing_keys.
Proof.
  unfold serialize_vehicle, listing_keys.
  rewrite !dom_insert_L, dom_empty_L. set_solver.
Qed.

(** A key outside the eight listing keys is not in the output, whatever the
    raw document holds under it. *)
Lemma serialize_drops doc k : k ∉ listing_keys → serialize doc !! k = None.
Proof.
  intros Hk. apply not_elem_of_dom. rewrite serialize_dom.
  by rewrite elem_of_list_to_set.
Qed.

Lemma serialize_id_falsy doc :
  py_truthy (dict_get doc "_id") = false → serialize doc !! "id" = Some VNone.
Proof. intros H. by rewrite serialize_id, H. Qed.

Lemma serialize_id_text doc s :
  serialize doc !! "id" = Some (VStr s) ↔
  ∃ v, doc !! "_id" = Some v ∧ py_truthy v = true ∧ s = str v.
Proof.
  rewrite serialize_id. unfold dict_get. split.
  - destruct (doc !! "_id") as [v|] eqn:E; simpl; [|discriminate].
    destruct (py_truthy v) eqn:T; [|discriminate].
    intros [= <-]. by exists v.
  - intros (v & -> & T & ->). simpl. by rewrite T.
Qed.

(** C10, as amended: the identifier of the listing is null for every falsy
    [_id] (absent, [None], the empty string, 0, ...) and is text exactly
    when [_id] is present and truthy; the output has exactly the eight
    listing keys for every document; a missing field is rendered as null,
    except [image_urls], whose missing value is rendered as the empty
    list. *)
Theorem serialize_identifier_and_shape doc :
  let out := serialize doc in
  (py_truthy (dict_get doc "_id") = false → out !! "id" = Some VNone) ∧
  (doc !! "_id" ∈ [None; Some VNone; Some (VStr ""); Some (VInt 0)] →
   out !! "id" = Some VNone) ∧
  (∀ s, out !! "id" = Some (VStr s) ↔
        ∃ v, doc !! "_id" = Some v ∧ py_truthy v = true ∧ s = str v) ∧
  dom out = list_to_set listing_keys ∧
  (∀ k, k ∈ listing_keys → k ≠ "image_urls" →
        doc !! source_key k = None → out !! k = Some VNone) ∧
  (doc !! "image_urls" = None → out !! "image_urls" = Some (VList [])).
Proof.
  cbv zeta. split_and!.
  - apply serialize_id_falsy.
  - intros Hid. apply serialize_id_falsy. unfold dict_get.
    for_each_member Hid ltac:(reflexivity).
  - apply serialize_id_text.
  - apply serialize_dom.
  - intros k Hk Hne Hmiss. unfold listing_keys in Hk.
    apply elem_of_cons in Hk as [->|Hk].
    { apply serialize_id_falsy. unfold dict_get.
      change (source_key "id") with "_id" in Hmiss. by rewrite Hmiss. }
    assert (k ∈ passed_through) as Hpass.
    { unfold passed_through.
      for_each_member Hk ltac:(first [congruence | repeat constructor]). }
    rewrite serialize_passed_through by done.
    assert (source_key k = k) as Ek.
    { unfold source_key. destruct (String.eqb_spec k "id") as [->|]; [|done].
      unfold passed_through in Hpass.
      no_member Hpass. }
    rewrite Ek in Hmiss. unfold dict_get. by rewrite Hmiss.
  - intros Hmiss. rewrite serialize_image_urls.
    unfold dict_get_default. by rewrite Hmiss.
Qed.

End SerializerFacts.

(** ** The handlers *)

Section ServiceFacts.
Context {DB : Type} `{!Database DB}.
Variable cwd : string.
Variable uuid4 : nat → N.
Variable disk : nat → io_result.
Variable builtin_str : pyval → string.
Variable validation_error_str : list ErrorDetails → string.

#[local] Arguments String.append : simpl never.

Local Abbreviation save1 :=
  (save_image (DB:=DB) cwd uuid4 disk validation_error_str).
Local Abbreviation save_all :=
  (save_images (DB:=DB) cwd uuid4 disk validation_error_str).
Local Abbreviation uploads :=
  (save_uploads (DB:=DB) cwd uuid4 disk validation_error_str).
Local Abbreviation create :=
  (create_vehicle (DB:=DB) cwd uuid4 disk validation_error_str).
Local Abbreviation listing :=
  (list_vehicles (DB:=DB) builtin_str validation_error_str).

(** One turn of the upload loop, in closed form: the token is the last
    value drawn, one draw after the current one when a stand-in name had to
    be made up first. *)
Lemma save_image_eq img (w : World DB) :
  let named := match filename img with
               | Some f => negb (String.eqb f "")
               | None => false
               end in
  let k := if named then w_draws w else S (w_draws w) in
  let name := uuid_hex (uuid4 k) +:+ ext_of (default "" (filename img)) in
  let dest := path_join (UPLOAD_DIR cwd) name in
  let after fs := mkWorld fs (S k) (S (w_writes w)) (w_db w) in
  save1 img w =
  match disk (w_writes w) with
  | IoOk => (inr ("/uploads/" +:+ name), after (<[dest := file img]> (w_fs w)))
  | IoOpenError msg =>
      (inl (HTTPException 500 ("Failed to save image: " +:+ msg)),
       after (w_fs w))
  | IoCopyError written msg =>
      (inl (HTTPException 500 ("Failed to save image: " +:+ msg)),
       after (<[dest := take written (file img)]> (w_fs w)))
  end.
Proof.
  destruct w as [fs draws writes db].
  unfold save_image, bind, try_except, uuid4_hex, write_file, ret, raise.
  destruct (filename img) as [f|]; cbn.
  - destruct (String.eqb_spec f "") as [->|Hf]; cbn.
    + rewrite ext_of_fallback, ext_of_empty. destruct (disk writes); reflexivity.
    + destruct (disk writes); reflexivity.
  - rewrite ext_of_fallback, ext_of_empty. destruct (disk writes); reflexivity.
Qed.

Lemma save_image_db img (w : World DB) : w_db (save1 img w).2 = w_db w.
Proof.
  rewrite save_image_eq. cbv zeta.
  destruct (disk (w_writes w)); reflexivity.
Qed.

Lemma save_image_writes img (w : World DB) :
  w_writes (save1 img w).2 = S (w_writes w).
Proof.
  rewrite save_image_eq. cbv zeta.
  destruct (disk (w_writes w)); reflexivity.
Qed.

Lemma save_image_draws img (w : World DB) :
  w_draws w < w_draws (save1 img w).2.
Proof.
  rewrite save_image_eq. cbv zeta.
  destruct (disk (w_writes w)); cbn [snd w_draws];
    destruct (match filename img with Some _ => _ | None => _ end); lia.
Qed.

(** One turn of the loop touches a single path of the upload directory and
    removes nothing. *)
Lemma save_image_fs img (w : World DB) :
  ∃ dest, (∀ p, p ≠ dest → w_fs (save1 img w).2 !! p = w_fs w !! p) ∧
          dom (w_fs w) ⊆ dom (w_fs (save1 img w).2).
Proof.
  rewrite save_image_eq. cbv zeta.
  set (dest := path_join _ _). exists dest.
  destruct (disk (w_writes w)); cbn [snd w_fs]; split; intros;
    rewrite ?lookup_insert_ne, ?dom_insert_L by congruence;
    first [reflexivity | set_solver].
Qed.

(** The loop over a concatenation: the second part starts where the first
    part stopped, and is not run when the first part raised. *)
Lemma save_images_app pre post acc (w : World DB) :
  save_all (pre ++ post) acc w =
  match save_all pre acc w with
  | (inr urls, w1) => save_all post urls w1
  | (inl e, w1) => (inl e, w1)
  end.
Proof.
  revert acc w. induction pre as [|img pre IH]; intros acc w; simpl; [done|].
  unfold bind. destruct (save1 img w) as [[e|url] w1]; [done|]. apply IH.
Qed.

Lemma save_images_db imgs acc (w : World DB) :
  w_db (save_all imgs acc w).2 = w_db w.
Proof.
  revert acc w. induction imgs as [|img imgs IH]; intros acc w; simpl; [done|].
  unfold bind. pose proof (save_image_db img w) as Hdb.
  destruct (save1 img w) as [[e|url] w1]; simpl in *; [done|].
  by rewrite IH.
Qed.

Lemma save_images_dom imgs acc (w : World DB) :
  dom (w_fs w) ⊆ dom (w_fs (save_all imgs acc w).2).
Proof.
  revert acc w. induction imgs as [|img imgs IH]; intros acc w; simpl; [done|].
  unfold bind. destruct (save_image_fs img w) as (dest & _ & Hdom).
  destruct (save1 img w) as [[e|url] w1]; simpl in *; [done|].
  etrans; [exact Hdom|apply IH].
Qed.

Lemma save_uploads_db images (w : World DB) :
  w_db (uploads images w).2 = w_db w.
Proof.
  destruct images as [[|img imgs]|]; try done.
  apply save_images_db.
Qed.

(** The loop only appends to the list it is handed. *)
Lemma save_images_acc imgs acc (w : World DB) :
  save_all imgs acc w =
  match save_all imgs [] w with
  | (inr new, w') => (inr (acc ++ new)%list, w')
  | (inl e, w') => (inl e, w')
  end.
Proof.
  revert acc w. induction imgs as [|img imgs IH]; intros acc w; cbn.
  - unfold ret. by rewrite app_nil_r.
  - unfold bind. destruct (save1 img w) as [[e|url] w1]; [reflexivity|].
    rewrite (IH (acc ++ [url])%list), (IH ([] ++ [url])%list).
    destruct (save_all imgs [] w1) as [[e|new] w2]; [reflexivity|].
    by rewrite <- app_assoc.
Qed.

Lemma save_images_length imgs (w w' : World DB) urls :
  save_all imgs [] w = (inr urls, w') → length urls = length imgs.
Proof.
  revert w urls. induction imgs as [|img imgs IH]; intros w urls; cbn.
  - by intros [= <- <-].
  - unfold bind. destruct (save1 img w) as [[e|url] w1]; [discriminate|].
    rewrite save_images_acc.
    destruct (save_all imgs [] w1) as [[e|new] w2] eqn:E; [discriminate|].
    intros [= <- <-]. cbn. f_equal. by eapply IH.
Qed.

(** Cutting a successful run of the loop after [i] turns: the first [i]
    turns succeed on their own and give the first [i] entries. *)
Lemma save_images_take imgs (w w' : World DB) urls i :
  save_all imgs [] w = (inr urls, w') →
  ∃ wi, save_all (take i imgs) [] w = (inr (take i urls), wi) ∧
        save_all (drop i imgs) (take i urls) wi = (inr urls, w').
Proof.
  intros Hrun. pose proof (save_images_length _ _ _ _ Hrun) as Hlen.
  rewrite <- (take_drop i imgs) in Hrun at 1.
  rewrite save_images_app in Hrun.
  destruct (save_all (take i imgs) [] w) as [[e|pre] wi] eqn:Epre;
    [discriminate|].
  pose proof (save_images_length _ _ _ _ Epre) as Hpre.
  rewrite save_images_acc in Hrun.
  destruct (save_all (drop i imgs) [] wi) as [[e|post] wj] eqn:Epost;
    [discriminate|].
  injection Hrun as <- <-.
  assert (take i (pre ++ post) = pre) as Etake.
  { pose proof (save_images_length _ _ _ _ Epost) as Hpost.
    rewrite length_take in Hpre. rewrite length_drop in Hpost.
    destruct (decide (i ≤ length imgs)%nat) as [Hi|Hi].
    - rewrite take_app_length'; [done|lia].
    - destruct post; [|cbn in Hpost; lia].
      rewrite app_nil_r. apply take_ge. lia. }
  exists wi. rewrite Etake. split; [done|].
  rewrite save_images_acc, Epost. done.
Qed.

Lemma save_uploads_some imgs (w : World DB) :
  uploads (Some imgs) w = save_all imgs [] w.
Proof. by destruct imgs. Qed.

(** The create handler, phase by phase: uploads, validation, insert. *)
Lemma create_vehicle_eq mk md y p d images (w : World DB) :
  create mk md y p d images w =
  match uploads images w with
  | (inl e, w1) => (inl e, w1)
  | (inr urls, w1) =>
      match Vehicle_init mk md y p d urls with
      | inl errors => (inl (ValidationError errors), w1)
      | inr v =>
          let after db := mkWorld (w_fs w1) (w_draws w1) (w_writes w1) db in
          match create_document "vehicle" v (w_db w1) with
          | (inr id, db') => (inr (model_dump v ∪ {["id" := id]}), after db')
          | (inl msg, db') => (inl (HTTPException 500 msg), after db')
          end
      end
  end.
Proof.
  unfold create_vehicle, bind.
  destruct (uploads images w) as [[e|urls] w1]; [reflexivity|].
  destruct (Vehicle_init mk md y p d urls) as [errors|v]; [reflexivity|].
  unfold ret, try_except, bind, db_create_document, raise.
  destruct (create_document "vehicle" v (w_db w1)) as [[msg|id] db'];
    reflexivity.
Qed.

(** The list handler in terms of the answer of the store. *)
Lemma list_vehicles_eq (w : World DB) :
  let after db := mkWorld (w_fs w) (w_draws w) (w_writes w) db in
  listing w =
  match get_documents "vehicle" ∅ None (w_db w) with
  | (inr docs, db') => (inr (serialize_vehicle builtin_str <$> docs), after db')
  | (inl msg, db') => (inl (HTTPException 500 msg), after db')
  end.
Proof.
  unfold list_vehicles, try_except, bind, db_get_documents, ret, raise.
  destruct (get_documents "vehicle" ∅ None (w_db w)) as [[msg|docs] db'];
    reflexivity.
Qed.

(** *** The claims about the handlers *)


(** C4: validation comes before storage. When validation of the submitted
    fields fails, the handler does not return a response and leaves the
    database as it was; and whenever the database differs after the call,
    validation has passed on a record [v] and the new database is the one
    that [create_document "vehicle" v] produced. The database is abstract
    here, so this holds for every implementation of the [database] module,
    including one that records each call it receives. *)
Theorem validation_before_storage mk md y p d images (w : World DB) :
  let out := create mk md y p d images w in
  ((∃ urls errors, Vehicle_init mk md y p d urls = inl errors) →
   w_db out.2 = w_db w ∧ ∀ body, out.1 ≠ inr body) ∧
  (w_db out.2 ≠ w_db w →
   ∃ urls v, Vehicle_init mk md y p d urls = inr v ∧
             w_db out.2 = (create_document "vehicle" v (w_db w)).2).
Proof.
  cbv zeta. rewrite create_vehicle_eq.
  pose proof (save_uploads_db images w) as Hdb.
  destruct (uploads images w) as [[e|urls] w1]; cbn [snd fst] in *.
  - split; [split; [done|discriminate]|]. intros Hne. by destruct Hne.
  - destruct (Vehicle_init mk md y p d urls) as [errors|v] eqn:Hv.
    + split; [split; [done|discriminate]|]. intros Hne. by destruct Hne.
    + split.
      * intros (urls' & errors & Hbad).
        rewrite (Vehicle_init_urls _ _ _ _ _ _ urls _ Hbad) in Hv.
        discriminate Hv.
      * intros _. exists urls, v. split; [done|]. rewrite <- Hdb.
        by destruct (create_document "vehicle" v (w_db w1)) as [[msg|id] db'].
Qed.

(** C5: when the write of an attachment fails, after the attachments before
    it were saved, the handler raises the 500 error at once: the world it
    leaves is the one left by the failed write, so no later attachment is
    attempted, the database is untouched, and every file of the upload
    directory is still there; apart from the path of the failed write, the
    files have the contents they had. *)
Theorem abort_on_write_failure mk md y p d pre img post (w w1 : World DB)
    urls msg :
  save_all pre [] w = (inr urls, w1) →
  write_fails (disk (w_writes w1)) msg →
  let out := create mk md y p d (Some (pre ++ img :: post)) w in
  out.1 = inl (HTTPException 500 ("Failed to save image: " +:+ msg)) ∧
  out.2 = (save1 img w1).2 ∧
  w_db out.2 = w_db w ∧
  w_writes out.2 = S (w_writes w1) ∧
  dom (w_fs w1) ⊆ dom (w_fs out.2) ∧
  ∃ dest, ∀ path, path ≠ dest → w_fs out.2 !! path = w_fs w1 !! path.
Proof.
  intros Hpre Hfail. cbv zeta.
  assert (∃ w2, save1 img w1 =
                (inl (HTTPException 500 ("Failed to save image: " +:+ msg)),
                 w2)) as [w2 Hsave].
  { rewrite save_image_eq. cbv zeta.
    destruct Hfail as [->|[written ->]]; eexists; reflexivity. }
  assert (create mk md y p d (Some (pre ++ img :: post)) w =
          (inl (HTTPException 500 ("Failed to save image: " +:+ msg)), w2))
    as ->.
  { rewrite create_vehicle_eq, save_uploads_some, save_images_app, Hpre.
    cbn [save_images]. unfold bind. by rewrite Hsave. }
  pose proof (save_image_db img w1) as Hdb.
  pose proof (save_image_writes img w1) as Hwr.
  destruct (save_image_fs img w1) as (dest & Hother & Hdom).
  pose proof (save_images_db pre [] w) as Hdb0.
  rewrite Hsave in *. rewrite Hpre in Hdb0. cbn [fst snd] in *.
  split_and!; try done; [congruence|by exists dest].
Qed.

(** C6 (the code does otherwise): a request whose fields fail validation,
    here [year = 1899], makes the create handler raise the pydantic
    [ValidationError] itself, not an [HTTPException] with status 500 and a
    detail message: the construction of [Vehicle] is outside both [try]
    blocks of the handler. *)
Theorem validation_error_escapes (w : World DB) :
  create "Toyota" "Corolla" 1899 15000%float (Some "clean title") None w =
  (inl (ValidationError [mkError "year" greater_than_equal]), w).
Proof. rewrite create_vehicle_eq. reflexivity. Qed.


(** C8: when the [n] attachments of a request are all saved, the list
    [image_urls] has length [n], and its [i]-th entry is the URL that the loop
    body returns for the [i]-th attachment, run in the world left by the [i]
    attachments before it; this list, in this order, is the [image_urls] of
    the success response. *)
Theorem upload_order_preserved mk md y p d imgs (w w1 : World DB) urls :
  uploads (Some imgs) w = (inr urls, w1) →
  length urls = length imgs ∧
  (∀ i img, imgs !! i = Some img →
     ∃ wi wi' url,
       save_all (take i imgs) [] w = (inr (take i urls), wi) ∧
       save1 img wi = (inr url, wi') ∧
       urls !! i = Some url) ∧
  (∀ body w', create mk md y p d (Some imgs) w = (inr body, w') →
     body !! "image_urls" = Some (VList (VStr <$> urls))).
Proof.
  rewrite save_uploads_some. intros Hrun. split_and!.
  - by eapply save_images_length.
  - intros i img Hi.
    destruct (save_images_take _ _ _ _ i Hrun) as (wi & Hpre & Hpost).
    rewrite (drop_S _ _ _ Hi) in Hpost. cbn [save_images] in Hpost.
    unfold bind in Hpost.
    destruct (save1 img wi) as [[e|url] wi'] eqn:Hone; [discriminate|].
    exists wi, wi', url. split_and!; [done..|].
    rewrite save_images_acc in Hpost.
    destruct (save_all (drop (S i) imgs) [] wi') as [[e|rest] wj];
      [discriminate|].
    injection Hpost as Hurls _.
    pose proof (save_images_length _ _ _ _ Hrun) as Hlen.
    apply lookup_lt_Some in Hi.
    assert (length (take i urls) = i) as Hti by (rewrite length_take; lia).
    rewrite <- Hurls, <- app_assoc, lookup_app_r by lia.
    by rewrite Hti, Nat.sub_diag.
  - intros body w'. rewrite create_vehicle_eq, save_uploads_some, Hrun.
    destruct (Vehicle_init mk md y p d urls) as [errors|v] eqn:Hv;
      [discriminate|].
    apply Vehicle_init_inr in Hv as [_ ->]. cbv zeta.
    destruct (create_document _ _ _) as [[msg|id] db']; [discriminate|].
    intros [Hbody _]%pair_equal_spec. apply (inj inr) in Hbody as <-.
    unfold model_dump. cbn [image_urls].
    rewrite lookup_union_l'; by simplify_map_eq.
Qed.

(** C9: when the store answers with the raw documents [docs], the list
    handler returns their serializations in the same order, and the empty
    list when there is none. In each serialization the identifier [_id] of
    the store becomes text (an [ObjectId] becomes its 24 hexadecimal
    digits), and null when absent; [make], [model], [year], [price],
    [description] and [created_at] are the values of the raw document, null
    when absent; [image_urls] is the value of the raw document, the empty
    list when absent; no other key of the raw document is kept. *)
Theorem list_serialization_contract (w : World DB) docs db' :
  get_documents "vehicle" ∅ None (w_db w) = (inr docs, db') →
  ∃ outs, (listing w).1 = inr outs ∧
          length outs = length docs ∧
          (docs = [] → outs = []) ∧
          ∀ i doc, docs !! i = Some doc →
            ∃ out, outs !! i = Some out ∧
              (∀ v, doc !! "_id" = Some v → py_truthy v = true →
                    out !! "id" = Some (VStr (py_str builtin_str v))) ∧
              (∀ o, doc !! "_id" = Some (VObjectId o) →
                    out !! "id" = Some (VStr (oid_hex o))) ∧
              (doc !! "_id" = None → out !! "id" = Some VNone) ∧
              (∀ k, k ∈ passed_through →
                    out !! k = Some (default VNone (doc !! k))) ∧
              out !! "image_urls" =
                Some (default (VList []) (doc !! "image_urls")) ∧
              (∀ k, k ∉ listing_keys → out !! k = None).
Proof.
  intros Hdocs. rewrite list_vehicles_eq. cbv zeta. rewrite Hdocs.
  exists (serialize_vehicle builtin_str <$> docs). cbn [fst].
  split_and!; [done|apply length_fmap|by intros ->|].
  intros i doc Hi. exists (serialize_vehicle builtin_str doc).
  split_and!.
  - by rewrite list_lookup_fmap, Hi.
  - intros v Hv Ht. rewrite serialize_id. unfold dict_get.
    rewrite Hv. cbn [from_option id]. by rewrite Ht.
  - intros o Ho. rewrite serialize_id. unfold dict_get. rewrite Ho.
    reflexivity.
  - intros Hnone. apply serialize_id_falsy. unfold dict_get. by rewrite Hnone.
  - intros k Hk. by apply serialize_passed_through.
  - apply serialize_image_urls.
  - apply serialize_drops.
Qed.

End ServiceFacts.

(** ** Create, then list, on the document store *)

Section RoundTrip.
Variable gen_oid : nat → ObjectId.
Variable now : nat → option pyval.
Variable value_eqb : pyval → pyval → bool.
Variable cwd : string.
Variable uuid4 : nat → N.
Variable disk : nat → io_result.
Variable builtin_str : pyval → string.
Variable validation_error_str : list ErrorDetails → string.

Local Abbreviation mongo := (mongo_database gen_oid now value_eqb).
Local Abbreviation create :=
  (@create_vehicle Mongo mongo cwd uuid4 disk validation_error_str).
Local Abbreviation listing :=
  (@list_vehicles Mongo mongo builtin_str validation_error_str).

Lemma doc_matches_empty doc : doc_matches value_eqb ∅ doc = true.
Proof. unfold doc_matches. by rewrite map_to_list_empty. Qed.

(** The stored document has the fields of the record, whether or not the
    adapter stamps it with a creation time. *)
Lemma stamp_lookup t doc k :
  k ≠ "created_at" → stamp t doc !! k = doc !! k.
Proof. intros Hk. destruct t; cbn; [|done]. by rewrite lookup_insert_ne. Qed.

(** C1: on an empty, reachable store, creating the listing
    Toyota / Corolla / 2020 / 15000 / "clean title" without attachments and
    then listing gives exactly one entry, with the submitted make, model,
    year, price and description, an empty [image_urls], and a non-empty
    text [id], the one that the create response carried. *)
Theorem round_trip_single_listing images fs draws writes :
  images = None ∨ images = Some [] →
  let w := mkWorld fs draws writes empty_db in
  ∃ body w1 entry id,
    create "Toyota" "Corolla" 2020 15000%float (Some "clean title") images w
      = (inr body, w1) ∧
    listing w1 = (inr [entry], w1) ∧
    entry !! "make" = Some (VStr "Toyota") ∧
    entry !! "model" = Some (VStr "Corolla") ∧
    entry !! "year" = Some (VInt 2020) ∧
    entry !! "price" = Some (VFloat 15000%float) ∧
    entry !! "description" = Some (VStr "clean title") ∧
    entry !! "image_urls" = Some (VList []) ∧
    entry !! "id" = Some (VStr id) ∧
    id ≠ "" ∧
    body !! "id" = Some (VStr id).
Proof.
  intros Himages. cbv zeta.
  set (v := mkVehicle "Toyota" "Corolla" 2020 15000%float
                      (Some "clean title") []).
  set (oid := gen_oid 0).
  set (doc := <["_id" := VObjectId oid]> (stamp (now 0) (model_dump v))).
  set (db1 := mkMongo None (<["vehicle" := [doc]]> ∅) 1).
  assert (create "Toyota" "Corolla" 2020 15000%float (Some "clean title")
                 images (mkWorld fs draws writes empty_db)
          = (inr (model_dump v ∪ {["id" := VStr (oid_hex oid)]}),
             mkWorld fs draws writes db1)) as Hcreate.
  { rewrite create_vehicle_eq. by destruct Himages as [->| ->]. }
  assert (listing (mkWorld fs draws writes db1)
          = (inr [serialize_vehicle builtin_str doc],
             mkWorld fs draws writes db1)) as Hlist.
  { rewrite list_vehicles_eq. cbn. rewrite lookup_insert_eq. cbn.
    by rewrite doc_matches_empty. }
  assert (∀ k, k ≠ "_id" → k ≠ "created_at" → doc !! k = model_dump v !! k)
    as Hdoc.
  { intros k H1 H2. unfold doc.
    by rewrite lookup_insert_ne, stamp_lookup by done. }
  exists (model_dump v ∪ {["id" := VStr (oid_hex oid)]}),
         (mkWorld fs draws writes db1),
         (serialize_vehicle builtin_str doc), (oid_hex oid).
  assert (∀ k, k ∈ passed_through → k ≠ "created_at" →
               serialize_vehicle builtin_str doc !! k = model_dump v !! k)
    as Hout.
  { intros k Hk Hne. rewrite serialize_passed_through by done.
    unfold dict_get. rewrite Hdoc; [|intros ->|done].
    - unfold passed_through in Hk.
      for_each_member Hk ltac:(first [reflexivity | congruence]).
    - unfold passed_through in Hk.
      no_member Hk. }
  split_and!.
  - exact Hcreate.
  - exact Hlist.
  - rewrite Hout; [reflexivity|repeat constructor|discriminate].
  - rewrite Hout; [reflexivity|repeat constructor|discriminate].
  - rewrite Hout; [reflexivity|repeat constructor|discriminate].
  - rewrite Hout; [reflexivity|repeat constructor|discriminate].
  - rewrite Hout; [reflexivity|repeat constructor|discriminate].
  - rewrite serialize_image_urls. unfold dict_get_default.
    rewrite Hdoc by discriminate. reflexivity.
  - rewrite serialize_id. unfold dict_get, doc. rewrite lookup_insert_eq.
    reflexivity.
  - apply oid_hex_nonempty.
  - rewrite lookup_union_r; [apply lookup_singleton_eq|]. reflexivity.
Qed.

End RoundTrip.


(** ** The statements at concrete inputs *)


(** C10 does not hold as stated: a document without [image_urls] is
    serialized with the empty list under that key, not with null. *)
Lemma missing_image_urls_not_null :
  ¬ (∀ builtin_str doc k,
       k ∈ listing_keys → doc !! source_key k = None →
       serialize_vehicle builtin_str doc !! k = Some VNone).
Proof.
  intros Hclaim.
  specialize (Hclaim Sample.builtin_str ∅ "image_urls").
  rewrite serialize_image_urls in Hclaim.
  assert (Some (VList []) = Some VNone) as Habs; [|discriminate Habs].
  apply Hclaim; [|reflexivity].
  unfold listing_keys. repeat constructor.
Qed.

(** The years 1899, 2101, 1900 and 2100. *)
Lemma year_bounds_inclusive_witness :
  (∃ errors,
     Vehicle_init "Toyota" "Corolla" 1899 15000%float None [] = inl errors ∧
     mkError "year" greater_than_equal ∈ errors) ∧
  (∃ errors,
     Vehicle_init "Toyota" "Corolla" 2101 15000%float None [] = inl errors ∧
     mkError "year" less_than_equal ∈ errors) ∧
  Vehicle_init "Toyota" "Corolla" 1900 15000%float None []
    = inr (mkVehicle "Toyota" "Corolla" 1900 15000%float None []) ∧
  Vehicle_init "Toyota" "Corolla" 2100 15000%float None []
    = inr (mkVehicle "Toyota" "Corolla" 2100 15000%float None []).
Proof.
  split_and!.
  - apply (year_bounds_inclusive "Toyota" "Corolla" 1899 15000%float None []).
    left. lia.
  - apply (year_bounds_inclusive "Toyota" "Corolla" 2101 15000%float None []).
    right. lia.
  - apply (year_bounds_inclusive "Toyota" "Corolla" 1900 15000%float None []);
      [left|]; reflexivity.
  - apply (year_bounds_inclusive "Toyota" "Corolla" 2100 15000%float None []);
      [right|]; reflexivity.
Defined.

(** Documents with an empty or zero [_id], and a document with a make only. *)
Lemma serialize_identifier_and_shape_witness :
  serialize_vehicle Sample.builtin_str {["_id" := VStr ""]} !! "id"
    = Some VNone ∧
  serialize_vehicle Sample.builtin_str {["_id" := VInt 0]} !! "id"
    = Some VNone ∧
  serialize_vehicle Sample.builtin_str {["make" := VStr "Toyota"]} !! "year"
    = Some VNone ∧
  serialize_vehicle Sample.builtin_str {["make" := VStr "Toyota"]}
    !! "image_urls" = Some (VList []).
Proof.
  split_and!.
  - apply (proj1 (serialize_identifier_and_shape
                    Sample.builtin_str {["_id" := VStr ""]})).
    reflexivity.
  - apply (proj1 (proj2 (serialize_identifier_and_shape
                           Sample.builtin_str {["_id" := VInt 0]}))).
    cbn. repeat constructor.
  - destruct (serialize_identifier_and_shape
                Sample.builtin_str {["make" := VStr "Toyota"]})
      as (_ & _ & _ & _ & Hnull & _).
    apply Hnull; [unfold listing_keys; repeat constructor|discriminate|].
    reflexivity.
  - destruct (serialize_identifier_and_shape
                Sample.builtin_str {["make" := VStr "Toyota"]})
      as (_ & _ & _ & _ & _ & Hurls).
    apply Hurls. reflexivity.
Defined.


(** One upload and the year 1899: the store stays empty; with the year 2020
    the store is the one [create_document] gives. *)
Lemma validation_before_storage_witness :
  (w_db (Sample.create Sample.disk_ok "Toyota" "Corolla" 1899 15000%float None
                       (Some [Sample.photo "A.jpg"]) Sample.world).2
   = empty_db) ∧
  ∃ urls v,
    Vehicle_init "Toyota" "Corolla" 2020 15000%float None urls = inr v ∧
    w_db (Sample.create Sample.disk_ok "Toyota" "Corolla" 2020 15000%float None
                        (Some [Sample.photo "A.jpg"]) Sample.world).2
    = (create_document (Database:=Sample.mongo) "vehicle" v empty_db).2.
Proof.
  split.
  - apply (validation_before_storage
             (DB:=Mongo) (Database0:=Sample.mongo)
             Sample.cwd Sample.uuid4 Sample.disk_ok
             Sample.validation_error_str
             "Toyota" "Corolla" 1899 15000%float None
             (Some [Sample.photo "A.jpg"]) Sample.world).
    exists [], [mkError "year" greater_than_equal]. reflexivity.
  - apply (validation_before_storage
             (DB:=Mongo) (Database0:=Sample.mongo)
             Sample.cwd Sample.uuid4 Sample.disk_ok
             Sample.validation_error_str
             "Toyota" "Corolla" 2020 15000%float None
             (Some [Sample.photo "A.jpg"]) Sample.world).
    vm_compute. discriminate.
Defined.

(** Three uploads on a disk that is full after the first one. *)
Lemma abort_on_write_failure_witness :
  let out := Sample.create Sample.disk_full_after_one
               "Toyota" "Corolla" 2020 15000%float None
               (Some [Sample.photo "A.jpg"; Sample.photo "B.png";
                      Sample.photo "C.jpg"])
               Sample.world in
  out.1 = inl (HTTPException
                 500 "Failed to save image: No space left on device") ∧
  w_db out.2 = empty_db ∧
  w_writes out.2 = 2 ∧
  w_fs out.2 !! "/srv/app/uploads/00000000000000000000000000000000.jpg"
    = Some Sample.jpeg.
Proof.
  destruct (abort_on_write_failure
              (DB:=Mongo) (Database0:=Sample.mongo)
              Sample.cwd Sample.uuid4 Sample.disk_full_after_one
              Sample.validation_error_str
              "Toyota" "Corolla" 2020 15000%float None
              [Sample.photo "A.jpg"] (Sample.photo "B.png")
              [Sample.photo "C.jpg"]
              Sample.world
              (mkWorld
                 {["/srv/app/uploads/00000000000000000000000000000000.jpg"
                   := Sample.jpeg]} 1 1 empty_db)
              ["/uploads/00000000000000000000000000000000.jpg"]
              "No space left on device")
    as (Hout & Hworld & Hdb & Hwrites & Hdom & dest & Hother).
  - vm_compute. reflexivity.
  - right. exists 1. reflexivity.
  - cbv zeta. split_and!; [exact Hout|exact Hdb|exact Hwrites|].
    vm_compute. reflexivity.
Defined.


(** The uploads [A.jpg], [B.jpg], [C.jpg]. *)
Lemma upload_order_preserved_witness :
  let imgs := [Sample.photo "A.jpg"; Sample.photo "B.jpg";
               Sample.photo "C.jpg"] in
  let urls := ["/uploads/00000000000000000000000000000000.jpg";
               "/uploads/00000000000000000000000000000001.jpg";
               "/uploads/00000000000000000000000000000002.jpg"] in
  length urls = length imgs ∧
  (∃ wi wi' url,
     Sample.save_images Sample.disk_ok (take 2 imgs) [] Sample.world
     = (inr (take 2 urls), wi) ∧
     Sample.save_image Sample.disk_ok (Sample.photo "C.jpg") wi
     = (inr url, wi') ∧
     urls !! 2 = Some url) ∧
  (∃ body w',
     Sample.create Sample.disk_ok "Toyota" "Corolla" 2020 15000%float None
       (Some imgs) Sample.world = (inr body, w') ∧
     body !! "image_urls" = Some (VList (VStr <$> urls))).
Proof.
  intros imgs urls.
  destruct (upload_order_preserved
              (DB:=Mongo) (Database0:=Sample.mongo)
              Sample.cwd Sample.uuid4 Sample.disk_ok
              Sample.validation_error_str
              "Toyota" "Corolla" 2020 15000%float None
              imgs Sample.world
              (Sample.save_images Sample.disk_ok imgs [] Sample.world).2
              urls)
    as (Hlen & Hith & Hbody).
  - vm_compute. reflexivity.
  - split_and!; [exact Hlen| |].
    + apply (Hith 2 (Sample.photo "C.jpg")). reflexivity.
    + assert (Sample.create Sample.disk_ok "Toyota" "Corolla" 2020
                15000%float None (Some imgs) Sample.world
              = (inr (model_dump
                        (mkVehicle "Toyota" "Corolla" 2020 15000%float None
                           urls)
                      ∪ {["id" := VStr "000000000000000000000000"]}),
                 (Sample.create Sample.disk_ok "Toyota" "Corolla" 2020
                    15000%float None (Some imgs) Sample.world).2)) as Hrun
        by (vm_compute; reflexivity).
      eexists _, _. split; [exact Hrun|exact (Hbody _ _ Hrun)].
Defined.

(** Listing the empty store, and a store that holds a document with an
    identifier, a make and a field of its own, followed by an empty
    document. *)
Lemma list_serialization_contract_witness :
  let doc : gmap string pyval :=
    <["_id" := VObjectId (mkObjectId 10)]>
    (<["make" := VStr "Toyota"]> (<["owner" := VStr "ann"]> ∅)) in
  let db := mkMongo None {["vehicle" := [doc; ∅]]} 2 in
  (∃ outs, (Sample.listing Sample.world).1 = inr outs ∧ outs = []) ∧
  ∃ outs out bare,
    (Sample.listing (mkWorld ∅ 0 0 db)).1 = inr outs ∧
    length outs = 2 ∧
    outs !! 0 = Some out ∧
    out !! "id" = Some (VStr "00000000000000000000000a") ∧
    out !! "make" = Some (VStr "Toyota") ∧
    out !! "year" = Some VNone ∧
    out !! "image_urls" = Some (VList []) ∧
    out !! "owner" = None ∧
    outs !! 1 = Some bare ∧
    bare !! "id" = Some VNone.
Proof.
  intros doc db. split.
  - destruct (list_serialization_contract
                (DB:=Mongo) (Database0:=Sample.mongo)
                Sample.builtin_str Sample.validation_error_str
                Sample.world [] empty_db)
      as (outs & Hrun & _ & Hempty & _); [reflexivity|].
    exists outs. split; [exact Hrun|by apply Hempty].
  - destruct (list_serialization_contract
                (DB:=Mongo) (Database0:=Sample.mongo)
                Sample.builtin_str Sample.validation_error_str
                (mkWorld ∅ 0 0 db) [doc; ∅] db)
      as (outs & Hrun & Hlen & _ & Hdocs); [vm_compute; reflexivity|].
    destruct (Hdocs 0 doc eq_refl)
      as (out & Hout & _ & Hoid & _ & Hpass & Hurls & Hdrop).
    destruct (Hdocs 1 ∅ eq_refl) as (bare & Hbare & _ & _ & Hnone & _).
    exists outs, out, bare. split_and!.
    + exact Hrun.
    + exact Hlen.
    + exact Hout.
    + exact (Hoid (mkObjectId 10) eq_refl).
    + apply (Hpass "make"). unfold passed_through. repeat constructor.
    + apply (Hpass "year"). unfold passed_through. repeat constructor.
    + exact Hurls.
    + apply Hdrop. unfold listing_keys. intros Hin. no_member Hin.
    + exact Hbare.
    + apply Hnone. reflexivity.
Defined.

(** The round trip on the sample store, without an [images] field. *)
Lemma round_trip_single_listing_witness :
  ∃ body w1 entry id,
    Sample.create Sample.disk_ok "Toyota" "Corolla" 2020 15000%float
                  (Some "clean title") None Sample.world = (inr body, w1) ∧
    Sample.listing w1 = (inr [entry], w1) ∧
    entry !! "make" = Some (VStr "Toyota") ∧
    entry !! "model" = Some (VStr "Corolla") ∧
    entry !! "year" = Some (VInt 2020) ∧
    entry !! "price" = Some (VFloat 15000%float) ∧
    entry !! "description" = Some (VStr "clean title") ∧
    entry !! "image_urls" = Some (VList []) ∧
    entry !! "id" = Some (VStr id) ∧
    id ≠ "" ∧
    body !! "id" = Some (VStr id).
Proof.
  apply (round_trip_single_listing
           (λ n, mkObjectId (N.of_nat n)) (λ _, None) (λ _ _, false)
           Sample.cwd Sample.uuid4 Sample.disk_ok
           Sample.builtin_str Sample.validation_error_str
           None ∅ 0 0).
  left. reflexivity.
Defined.

(** * Further properties *)

(** ** The schemas *)

Section MoreSchemaFacts.
Local Open Scope Z_scope.

(** [0 <= p] on floats: [p] is a number and is not below zero. *)
Lemma leb_zero_spec (p : float) :
  PrimFloat.leb 0%float p = true ↔
  PrimFloat.ltb p 0%float = false ∧ PrimFloat.is_nan p = false.
Proof.
  unfold PrimFloat.is_nan.
  rewrite FloatAxioms.leb_spec, FloatAxioms.ltb_spec, FloatAxioms.eqb_spec.
  change (Prim2SF 0%float) with (SpecFloat.S754_zero false).
  destruct (Prim2SF p) as [s|s| |s m e];
    unfold SpecFloat.SFleb, SpecFloat.SFltb, SpecFloat.SFeqb; cbn.
  - tauto.
  - destruct s; cbn; intuition congruence.
  - intuition congruence.
  - rewrite Z.compare_refl, Pcompare_refl.
    destruct s; cbn; intuition congruence.
Qed.

(** X1: with a year in range, a listing record whose price is a number is
    accepted exactly when the price is not below zero: every negative price
    is rejected; zero, of either sign, and +infinity are accepted. *)
Theorem price_non_negative mk md y p d urls :
  1900 ≤ y ≤ 2100 →
  PrimFloat.is_nan p = false →
  Vehicle_init mk md y p d urls = inr (mkVehicle mk md y p d urls) ↔
  PrimFloat.ltb p 0%float = false.
Proof.
  intros Hy Hnan. split.
  - intros [[_ Hp] _]%Vehicle_init_inr. by apply leb_zero_spec.
  - intros Hp. apply Vehicle_init_inr. split; [|done].
    split; [done|]. by apply leb_zero_spec.
Qed.

Lemma check_year_errors y e :
  e ∈ check_year y → (∃ t, e = mkError "year" t) ∧ ¬ 1900 ≤ y ≤ 2100.
Proof.
  unfold check_year.
  destruct (Z.ltb_spec y 1900); [|destruct (Z.ltb_spec 2100 y)].
  - intros ->%list_elem_of_singleton. split; [by eexists|lia].
  - intros ->%list_elem_of_singleton. split; [by eexists|lia].
  - intros []%elem_of_nil.
Qed.

Lemma check_year_bad y :
  ¬ 1900 ≤ y ≤ 2100 → ∃ t, check_year y = [mkError "year" t].
Proof.
  intros Hy. unfold check_year.
  destruct (Z.ltb_spec y 1900); [by eexists|].
  destruct (Z.ltb_spec 2100 y); [by eexists|lia].
Qed.

Lemma check_price_errors p e :
  e ∈ check_price p →
  e = mkError "price" greater_than_equal ∧ PrimFloat.leb 0%float p = false.
Proof.
  unfold check_price. destruct (PrimFloat.leb 0%float p).
  - intros []%elem_of_nil.
  - by intros ->%list_elem_of_singleton.
Qed.

Lemma check_price_bad p :
  PrimFloat.leb 0%float p = false →
  check_price p = [mkError "price" greater_than_equal].
Proof. unfold check_price. by intros ->. Qed.

Lemma check_lengths y p :
  (length (check_year y) ≤ 1 ∧ length (check_price p) ≤ 1)%nat.
Proof.
  unfold check_year, check_price.
  destruct (y <? 1900), (2100 <? y), (PrimFloat.leb 0%float p); cbn; lia.
Qed.

(** X2: a validation error reports every invalid field and only invalid
    fields: it has an entry for [year] exactly when the year is out of
    range, an entry for [price] exactly when the price is not accepted, no
    other entry, and at most one entry per field. *)
Theorem validation_errors_name_invalid_fields mk md y p d urls errors :
  Vehicle_init mk md y p d urls = inl errors →
  ((∃ t, mkError "year" t ∈ errors) ↔ ¬ 1900 ≤ y ≤ 2100) ∧
  ((∃ t, mkError "price" t ∈ errors) ↔ PrimFloat.leb 0%float p = false) ∧
  (∀ e, e ∈ errors → loc e = "year" ∨ loc e = "price") ∧
  (0 < length errors ≤ 2)%nat.
Proof.
  unfold Vehicle_init. intros Hinit.
  assert (errors = check_year y ++ check_price p ∧ errors ≠ []) as [-> Hne].
  { destruct (check_year y ++ check_price p) eqn:E; [discriminate|].
    by injection Hinit as <-. }
  clear Hinit. split_and!.
  - split.
    + intros [t [Hin|Hin]%elem_of_app].
      * by apply check_year_errors in Hin as [_ Hy].
      * by apply check_price_errors in Hin as [[=] _].
    + intros [t Ht]%check_year_bad. exists t. rewrite Ht. set_solver.
  - split.
    + intros [t [Hin|Hin]%elem_of_app].
      * by apply check_year_errors in Hin as [[t' [=]] _].
      * by apply check_price_errors in Hin as [_ Hp].
    + intros ->%check_price_bad. exists greater_than_equal. set_solver.
  - intros e [Hin|Hin]%elem_of_app.
    + apply check_year_errors in Hin as [[t ->] _]. by left.
    + apply check_price_errors in Hin as [-> _]. by right.
  - destruct (check_year y ++ check_price p); [done|cbn; lia].
  - rewrite length_app. pose proof (check_lengths y p). lia.
Qed.

(** X3: a user record is accepted exactly when its age is omitted or within
    [0, 120], bounds included; the record holds the submitted values, and
    [is_active] is true when omitted. *)
Theorem user_age_bounds n e a ag act u :
  UserModel.User_init n e a ag act = inr u ↔
  match ag with Some x => 0 ≤ x ≤ 120 | None => True end ∧
  u = UserModel.mkUser n e a ag (default true act).
Proof.
  unfold UserModel.User_init, UserModel.check_age.
  destruct ag as [x|]; [|intuition congruence].
  destruct (Z.ltb_spec x 0), (Z.ltb_spec 120 x);
    split; try (intros [= <-]); try (intros [Hx ->]);
    try discriminate; try lia; done.
Qed.

(** X4: a product record whose price is a number is accepted exactly when
    the price is not below zero; the record holds the submitted values, with
    no description when omitted and [in_stock] true when omitted. *)
Theorem product_price_non_negative t d p c stock pr :
  PrimFloat.is_nan p = false →
  ProductModel.Product_init t d p c stock = inr pr ↔
  PrimFloat.ltb p 0%float = false ∧
  pr = ProductModel.mkProduct t d p c (default true stock).
Proof.
  intros Hnan. pose proof (leb_zero_spec p) as Hspec.
  unfold ProductModel.Product_init, check_price.
  destruct (PrimFloat.leb 0%float p); split.
  - intros [= <-]. split; [by apply Hspec|done].
  - by intros [_ ->].
  - discriminate.
  - intros [Hp _]. assert (false = true) as [=]. by apply Hspec.
Qed.

End MoreSchemaFacts.

(** ** File names and extensions *)

Section MoreStringFacts.
Local Open Scope Z_scope.

Lemma append_nil_r s : s +:+ "" = s.
Proof.
  induction s as [|a s IH]; [done|].
  change (String a s +:+ "") with (String a (s +:+ "")). by rewrite IH.
Qed.

Lemma substring_split s (d : nat) :
  String.substring 0 d s +:+ String.substring d (String.length s - d) s = s.
Proof.
  revert d. induction s as [|a s IH]; intros d.
  - by destruct d.
  - destruct d as [|d].
    + rewrite Nat.sub_0_r, substring_all. reflexivity.
    + change (String a (String.substring 0 d s
                        +:+ String.substring d (String.length s - d) s)
              = String a s).
      by rewrite IH.
Qed.

(** Splitting a file name loses nothing: the root followed by the
    extension is the name. *)
Theorem splitext_lossless p : (splitext p).1 +:+ (splitext p).2 = p.
Proof.
  unfold splitext.
  destruct (_ <? _); [|apply append_nil_r].
  destruct (has_non_dot _ _ _); [|apply append_nil_r].
  apply substring_split.
Qed.

Lemma rfind_from_neg_absent i c s :
  0 ≤ i → rfind_from i c s < 0 → occurs c s = false.
Proof.
  revert i. induction s as [|a s IH]; intros i Hi; cbn; [done|].
  destruct (Z.leb_spec 0 (rfind_from (i + 1) c s)) as [Hr|Hr]; [lia|].
  destruct (Ascii.eqb a c); [lia|].
  intros _. apply (IH (i + 1)); lia.
Qed.

(** The suffix that starts at the index returned by [rfind] starts with the
    character looked for, which does not occur again. *)
Lemma rfind_from_at i c s :
  0 ≤ i → 0 ≤ rfind_from i c s →
  ∃ (j : nat) rest,
    rfind_from i c s = i + Z.of_nat j ∧
    String.substring j (String.length s - j) s = String c rest ∧
    occurs c rest = false.
Proof.
  revert i. induction s as [|a s IH]; intros i Hi; cbn [rfind_from]; [lia|].
  destruct (Z.leb_spec 0 (rfind_from (i + 1) c s)) as [Hr|Hr].
  - intros _. destruct (IH (i + 1) ltac:(lia) Hr) as (j & rest & Hj & Hsub & Hocc).
    exists (S j), rest. split_and!; [lia|exact Hsub|exact Hocc].
  - destruct (Ascii.eqb_spec a c) as [->|Hac]; [|lia].
    intros _. exists 0%nat, s. split_and!; [lia| |].
    + by rewrite Nat.sub_0_r, substring_all.
    + apply (rfind_from_neg_absent (i + 1)); lia.
Qed.

(** X5: the extension given to a stored file is never empty: it is a dot
    followed by characters among which there is neither a dot nor a path
    separator. *)
Theorem extension_shape f :
  ∃ rest, ext_of f = String "." rest ∧
          occurs "." rest = false ∧ occurs "/" rest = false.
Proof.
  pose proof (ext_of_no_sep f) as Hsep. unfold ext_of in *.
  destruct (String.eqb_spec (splitext f).2 "") as [E|E].
  { by exists "jpg". }
  revert E Hsep. unfold splitext, rfind.
  pose proof (rfind_from_lower 0 "/" f ltac:(lia)) as Hlow.
  destruct (Z.ltb_spec (rfind_from 0 "/" f) (rfind_from 0 "." f)) as [Hlt|Hge];
    [|done].
  destruct (has_non_dot _ _ _); [|done]. cbn [snd].
  destruct (rfind_from_at 0 "." f ltac:(lia) ltac:(lia))
    as (j & rest & Hj & Hsub & Hocc).
  rewrite Hj, Z.add_0_l, Nat2Z.id, Hsub. intros _ Hsep.
  exists rest. split_and!; [done|exact Hocc|exact Hsep].
Qed.

Lemma append_inj_l a x y : a +:+ x = a +:+ y → x = y.
Proof.
  induction a as [|c a IH]; [done|].
  change (String c a +:+ x) with (String c (a +:+ x)).
  change (String c a +:+ y) with (String c (a +:+ y)).
  intros [= E]. by apply IH.
Qed.

Lemma append_same_length s1 t1 s2 t2 :
  String.length s1 = String.length s2 → s1 +:+ t1 = s2 +:+ t2 → s1 = s2.
Proof.
  revert s2. induction s1 as [|c s1 IH]; intros [|c' s2] Hlen; try done.
  change (String c s1 +:+ t1) with (String c (s1 +:+ t1)).
  change (String c' s2 +:+ t2) with (String c' (s2 +:+ t2)).
  intros [= -> E]. f_equal. apply IH; [|done]. by injection Hlen.
Qed.

(** Two stored names with different tokens are different, whatever their
    extensions: a token always has 32 characters. *)
Lemma stored_names_differ u u' e e' :
  uuid_hex u ≠ uuid_hex u' → uuid_hex u +:+ e ≠ uuid_hex u' +:+ e'.
Proof.
  intros Hne E. apply Hne. eapply append_same_length; [|exact E].
  unfold uuid_hex. by rewrite !hex_digits_length.
Qed.

End MoreStringFacts.

(** ** The upload loop *)

Section MoreServiceFacts.
Context {DB : Type} `{!Database DB}.
Variable cwd : string.
Variable uuid4 : nat → N.
Variable disk : nat → io_result.
Variable builtin_str : pyval → string.
Variable validation_error_str : list ErrorDetails → string.

Local Abbreviation save1 :=
  (save_image (DB:=DB) cwd uuid4 disk validation_error_str).
Local Abbreviation save_all :=
  (save_images (DB:=DB) cwd uuid4 disk validation_error_str).
Local Abbreviation uploads :=
  (save_uploads (DB:=DB) cwd uuid4 disk validation_error_str).
Local Abbreviation create :=
  (create_vehicle (DB:=DB) cwd uuid4 disk validation_error_str).
Local Abbreviation listing :=
  (list_vehicles (DB:=DB) builtin_str validation_error_str).
Local Abbreviation token k := (uuid_hex (uuid4 k)).
Local Abbreviation stored name := (UPLOAD_DIR cwd +:+ "/" +:+ name).

(** One turn of the loop, with the path of the file spelled out. *)
Lemma save_image_stored img (w : World DB) :
  let k := w_draws w + (if nameless img then 1 else 0) in
  let name := token k +:+ ext_of (default "" (filename img)) in
  let after fs := mkWorld fs (S k) (S (w_writes w)) (w_db w) in
  save1 img w =
  match disk (w_writes w) with
  | IoOk => (inr ("/uploads/" +:+ name),
             after (<[stored name := file img]> (w_fs w)))
  | IoOpenError msg =>
      (inl (HTTPException 500 ("Failed to save image: " +:+ msg)),
       after (w_fs w))
  | IoCopyError written msg =>
      (inl (HTTPException 500 ("Failed to save image: " +:+ msg)),
       after (<[stored name := take written (file img)]> (w_fs w)))
  end.
Proof.
  rewrite save_image_eq. cbv zeta.
  rewrite !path_join_upload_dir by apply safe_name_no_sep.
  unfold nameless.
  destruct (filename img) as [f|]; [destruct (String.eqb f "")|];
    cbn [negb]; rewrite ?Nat.add_0_r, ?Nat.add_1_r; reflexivity.
Qed.

(** What one turn of the loop does to the world, whatever its outcome. *)
Lemma save_image_step img (w : World DB) :
  ∃ k f,
    k = w_draws w + (if nameless img then 1 else 0) ∧
    w_draws (save1 img w).2 = S k ∧
    w_writes (save1 img w).2 = S (w_writes w) ∧
    (∀ path, path ≠ stored (token k +:+ ext_of f) →
             w_fs (save1 img w).2 !! path = w_fs w !! path) ∧
    (∀ url, (save1 img w).1 = inr url →
            url = "/uploads/" +:+ token k +:+ ext_of f ∧
            w_fs (save1 img w).2 !! stored (token k +:+ ext_of f)
            = Some (file img)).
Proof.
  exists (w_draws w + (if nameless img then 1 else 0)),
         (default "" (filename img)).
  rewrite save_image_stored. cbv zeta.
  destruct (disk (w_writes w)); cbn [fst snd w_draws w_writes w_fs];
    split_and!; try reflexivity.
  - intros path Hpath. by rewrite lookup_insert_ne.
  - intros url Hurl. apply (inj inr) in Hurl as <-.
    split; [reflexivity|apply lookup_insert_eq].
  - intros url Hurl. discriminate Hurl.
  - intros path Hpath. by rewrite lookup_insert_ne.
  - intros url Hurl. discriminate Hurl.
Qed.

(** The counters after a run of the loop that saved every attachment. *)
Lemma save_images_counters imgs acc (w w' : World DB) urls :
  save_all imgs acc w = (inr urls, w') →
  w_writes w' = w_writes w + length imgs ∧
  w_draws w' = w_draws w + length imgs + length (List.filter nameless imgs).
Proof.
  revert acc w. induction imgs as [|img imgs IH]; intros acc w; cbn.
  - intros [_ <-]%pair_equal_spec. lia.
  - unfold bind.
    destruct (save_image_step img w) as (k & f & Hk & Hd & Hw & _).
    destruct (save1 img w) as [[e|url] w1]; [discriminate|].
    cbn [snd] in *. intros [Hwr Hdr]%IH. rewrite Hwr, Hdr, Hw, Hd, Hk.
    destruct (nameless img); cbn [length]; lia.
Qed.

(** The draw counter never goes back, and a run of the loop leaves every
    file alone whose path is not the one of a token drawn during the run. *)
Lemma save_images_frame imgs acc (w : World DB) :
  (w_draws w ≤ w_draws (save_all imgs acc w).2)%nat ∧
  ∀ path,
    (∀ k f, (w_draws w ≤ k < w_draws (save_all imgs acc w).2)%nat →
            path ≠ stored (token k +:+ ext_of f)) →
    w_fs (save_all imgs acc w).2 !! path = w_fs w !! path.
Proof.
  revert acc w. induction imgs as [|img imgs IH]; intros acc w; cbn.
  - split; [lia|done].
  - unfold bind.
    destruct (save_image_step img w) as (k & f & Hk & Hd & _ & Hfs & _).
    assert (w_draws w ≤ k)%nat as Hle by lia. clear Hk.
    destruct (save1 img w) as [[e|url] w1]; cbn [snd] in *.
    + split; [lia|]. intros path Hpath. apply Hfs, Hpath. lia.
    + destruct (IH (acc ++ [url]) w1) as [Hmono Hrest].
      split; [lia|]. intros path Hpath.
      rewrite Hrest; [apply Hfs, Hpath; lia|].
      intros k' f' Hk'. apply Hpath. lia.
Qed.

(** Every URL returned by the loop is made of a token drawn during the run. *)
Lemma save_images_urls imgs (w w' : World DB) urls url :
  save_all imgs [] w = (inr urls, w') → url ∈ urls →
  ∃ k f, (w_draws w ≤ k < w_draws w')%nat ∧
         url = "/uploads/" +:+ token k +:+ ext_of f.
Proof.
  revert w urls. induction imgs as [|img imgs IH]; intros w urls; cbn.
  - intros [Hurls _]%pair_equal_spec. apply (inj inr) in Hurls as <-.
    by intros ?%elem_of_nil.
  - unfold bind.
    destruct (save_image_step img w) as (k & f & Hk & Hd & _ & _ & Hurl).
    destruct (save1 img w) as [[e|url0] w1]; [discriminate|]. cbn [fst snd] in *.
    rewrite save_images_acc.
    destruct (save_all imgs [] w1) as [[e|new] w2] eqn:Hrest; [discriminate|].
    intros [Hurls <-]%pair_equal_spec. apply (inj inr) in Hurls as <-.
    pose proof (proj1 (save_images_frame imgs [] w1)) as Hmono.
    rewrite Hrest in Hmono. cbn [snd] in Hmono.
    intros [->|Hin]%elem_of_cons.
    + exists k, f. split; [lia|]. by apply Hurl.
    + destruct (IH _ _ Hrest Hin) as (k' & f' & Hk' & ->).
      exists k', f'. split; [lia|done].
Qed.

(** X6: when the uploads of a request are all saved, there is one URL and
    one write per attachment, and one token drawn per attachment plus one
    more for each attachment without a file name; the database is not
    touched. *)
Theorem upload_counters images (w w1 : World DB) urls :
  uploads images w = (inr urls, w1) →
  let imgs := default [] images in
  length urls = length imgs ∧
  w_writes w1 = w_writes w + length imgs ∧
  w_draws w1 = w_draws w + length imgs + length (List.filter nameless imgs) ∧
  w_db w1 = w_db w.
Proof.
  intros Hup. cbv zeta.
  pose proof (save_uploads_db cwd uuid4 disk validation_error_str images w)
    as Hdb.
  rewrite Hup in Hdb. cbn [snd] in Hdb.
  destruct images as [imgs|]; cbn [default from_option id].
  - rewrite save_uploads_some in Hup.
    pose proof (save_images_length _ _ _ _ _ _ _ _ Hup) as Hlen.
    apply save_images_counters in Hup as [Hwr Hdr]. done.
  - apply pair_equal_spec in Hup as [Hurls <-].
    apply (inj inr) in Hurls as <-. cbn. split_and!; [done|lia|lia|done].
Qed.

(** X7: the create handler writes nowhere but directly in the upload
    directory: whatever the file names sent by the client, and whatever the
    outcome of the request, a path that is not the upload directory followed
    by a single component keeps the file it had, or stays absent. *)
Theorem writes_stay_in_upload_dir mk md y p d images (w : World DB) path :
  (∀ name, occurs "/" name = false → path ≠ stored name) →
  w_fs (create mk md y p d images w).2 !! path = w_fs w !! path.
Proof.
  intros Hpath.
  assert (w_fs (create mk md y p d images w).2
          = w_fs (uploads images w).2) as ->.
  { rewrite create_vehicle_eq.
    destruct (uploads images w) as [[e|urls] w1]; [done|].
    destruct (Vehicle_init mk md y p d urls) as [errors|v]; [done|].
    cbv zeta. by destruct (create_document _ _ _) as [[msg|id] db']. }
  destruct images as [[|img imgs]|]; [done| |done].
  rewrite save_uploads_some.
  apply save_images_frame. intros k f _. apply Hpath, safe_name_no_sep.
Qed.

(** X8: when the tokens drawn during a request are pairwise distinct, no
    upload overwrites another: the URLs are pairwise distinct, and after the
    loop the file named by the [i]-th URL holds the bytes of the [i]-th
    attachment. *)
Theorem distinct_tokens_keep_every_file imgs (w w' : World DB) urls :
  save_all imgs [] w = (inr urls, w') →
  (∀ i j, (w_draws w ≤ i < j)%nat → (j < w_draws w')%nat →
          token i ≠ token j) →
  NoDup urls ∧
  ∀ i img, imgs !! i = Some img →
    ∃ name, urls !! i = Some ("/uploads/" +:+ name) ∧
            w_fs w' !! stored name = Some (file img).
Proof.
  revert w urls. induction imgs as [|img imgs IH]; intros w urls; cbn.
  - intros [Hurls _]%pair_equal_spec _. apply (inj inr) in Hurls as <-.
    split; [constructor|]. intros i img Hi. by rewrite lookup_nil in Hi.
  - unfold bind.
    destruct (save_image_step img w) as (k & f & Hk & Hd & _ & _ & Hurl).
    assert (w_draws w ≤ k)%nat as Hle by lia. clear Hk.
    destruct (save1 img w) as [[e|url0] w1]; [discriminate|]. cbn [fst snd] in *.
    destruct (Hurl _ eq_refl) as [-> Hfile]. clear Hurl.
    rewrite save_images_acc.
    destruct (save_all imgs [] w1) as [[e|new] w2] eqn:Hrest; [discriminate|].
    intros [Hurls <-]%pair_equal_spec Hdistinct.
    apply (inj inr) in Hurls as <-.
    destruct (save_images_frame imgs [] w1) as [Hmono Hframe].
    rewrite Hrest in Hmono, Hframe. cbn [snd] in Hmono, Hframe.
    destruct (IH _ _ Hrest) as [Hnodup Hfiles].
    { intros i j Hij Hj. apply Hdistinct; lia. }
    assert (∀ k' f', (w_draws w1 ≤ k' < w_draws w2)%nat →
                     token k +:+ ext_of f ≠ token k' +:+ ext_of f') as Hfresh.
    { intros k' f' Hk'. apply stored_names_differ, Hdistinct; lia. }
    split.
    + cbn [app]. constructor; [|exact Hnodup].
      intros Hin.
      destruct (save_images_urls _ _ _ _ _ Hrest Hin) as (k' & f' & Hk' & E).
      apply append_inj_l in E. by apply (Hfresh k' f').
    + intros [|i] img' Hi.
      * injection Hi as <-. exists (token k +:+ ext_of f).
        split; [reflexivity|]. rewrite Hframe; [exact Hfile|].
        intros k' f' Hk' E. apply (Hfresh k' f' Hk').
        by apply append_inj_l, append_inj_l in E.
      * apply (Hfiles i img' Hi).
Qed.

(** X9: when the store refuses the insert, the handler raises the 500 error
    with the message of the store; the uploads are not undone: the files
    are as the upload loop left them. *)
Theorem insert_failure_reported mk md y p d images (w w1 : World DB) urls
    msg db' :
  uploads images w = (inr urls, w1) →
  create_document "vehicle" (mkVehicle mk md y p d urls) (w_db w1)
    = (inl msg, db') →
  (1900 ≤ y ≤ 2100)%Z → PrimFloat.leb 0%float p = true →
  (create mk md y p d images w).1 = inl (HTTPException 500 msg) ∧
  w_fs (create mk md y p d images w).2 = w_fs w1 ∧
  w_db (create mk md y p d images w).2 = db'.
Proof.
  intros Hup Hins Hy Hp. rewrite create_vehicle_eq, Hup.
  assert (Vehicle_init mk md y p d urls = inr (mkVehicle mk md y p d urls))
    as -> by by apply Vehicle_init_inr.
  cbv zeta. by rewrite Hins.
Qed.

(** X10: the uploads come before validation: a request whose fields are
    invalid still has its attachments written; the handler then raises the
    validation error and leaves the world as the upload loop left it, with
    one more file write per attachment. *)
Theorem invalid_listing_keeps_uploads mk md y p d images (w w1 : World DB)
    urls :
  uploads images w = (inr urls, w1) →
  ¬ ((1900 ≤ y ≤ 2100)%Z ∧ PrimFloat.leb 0%float p = true) →
  (∃ errors,
     create mk md y p d images w = (inl (ValidationError errors), w1)) ∧
  w_writes w1 = w_writes w + length (default [] images).
Proof.
  intros Hup Hbad. split.
  - destruct (Vehicle_init_inl mk md y p d urls Hbad) as [errors Herr].
    exists errors. by rewrite create_vehicle_eq, Hup, Herr.
  - by apply upload_counters in Hup as (_ & Hwr & _).
Qed.

(** X11: when the store fails to answer the query, the list handler raises
    the 500 error with the message of the store. *)
Theorem list_failure_reported (w : World DB) msg db' :
  get_documents "vehicle" ∅ None (w_db w) = (inl msg, db') →
  (listing w).1 = inl (HTTPException 500 msg).
Proof. intros Hget. rewrite list_vehicles_eq. cbv zeta. by rewrite Hget. Qed.

(** The list handler writes no file and draws no token; the database
    after it is the one left by its single query. *)
Theorem list_vehicles_read_only (w : World DB) :
  w_fs (listing w).2 = w_fs w ∧
  w_draws (listing w).2 = w_draws w ∧
  w_writes (listing w).2 = w_writes w ∧
  w_db (listing w).2 = (get_documents "vehicle" ∅ None (w_db w)).2.
Proof.
  rewrite list_vehicles_eq. cbv zeta.
  by destruct (get_documents "vehicle" ∅ None (w_db w)) as [[msg|docs] db'].
Qed.

(** X12: a success response of the create handler has exactly the keys
    [id], [make], [model], [year], [price], [description], [image_urls]
    (no [created_at]); it carries the submitted values, null for an omitted
    description, the URLs of the uploads and the identifier returned by the
    insert; and it is given only for a year and a price in range. *)
Theorem create_response_shape mk md y p d images (w w' : World DB) body :
  create mk md y p d images w = (inr body, w') →
  dom body = list_to_set ["id"; "make"; "model"; "year"; "price";
                          "description"; "image_urls"] ∧
  body !! "make" = Some (VStr mk) ∧
  body !! "model" = Some (VStr md) ∧
  body !! "year" = Some (VInt y) ∧
  body !! "price" = Some (VFloat p) ∧
  body !! "description" = Some (opt_str d) ∧
  (1900 ≤ y ≤ 2100)%Z ∧ PrimFloat.leb 0%float p = true ∧
  ∃ urls w1 id db',
    uploads images w = (inr urls, w1) ∧
    create_document "vehicle" (mkVehicle mk md y p d urls) (w_db w1)
      = (inr id, db') ∧
    body !! "image_urls" = Some (VList (VStr <$> urls)) ∧
    body !! "id" = Some id.
Proof.
  rewrite create_vehicle_eq.
  destruct (uploads images w) as [[e|urls] w1] eqn:Hup; [discriminate|].
  destruct (Vehicle_init mk md y p d urls) as [errors|v] eqn:Hv;
    [discriminate|].
  apply Vehicle_init_inr in Hv as [[Hy Hp] ->]. cbv zeta.
  destruct (create_document _ _ _) as [[msg|id] db'] eqn:Hins; [discriminate|].
  intros [Hbody _]%pair_equal_spec. apply (inj inr) in Hbody as <-.
  assert (∀ k, k ≠ "id" →
               (model_dump (mkVehicle mk md y p d urls) ∪ {["id" := id]}) !! k
               = model_dump (mkVehicle mk md y p d urls) !! k) as Hk.
  { intros k Hne. rewrite lookup_union, lookup_singleton_ne by done.
    by destruct (model_dump _ !! k). }
  split_and!; try (rewrite Hk by done; reflexivity); try done; try lia.
  exists urls, w1, id, db'. split_and!; [done|done| |].
  - rewrite Hk by done. reflexivity.
  - rewrite lookup_union_r; [apply lookup_singleton_eq|reflexivity].
Qed.

End MoreServiceFacts.

(** ** The calls made to the database *)

Section CallFacts.
Variable on_create : nat → string + pyval.
Variable on_get : nat → string + list (gmap string pyval).
Variable cwd : string.
Variable uuid4 : nat → N.
Variable disk : nat → io_result.
Variable builtin_str : pyval → string.
Variable validation_error_str : list ErrorDetails → string.

Local Abbreviation uploads :=
  (@save_uploads (list db_call) cwd uuid4 disk validation_error_str).
Local Abbreviation create :=
  (@create_vehicle (list db_call) (recorder on_create on_get)
     cwd uuid4 disk validation_error_str).
Local Abbreviation listing :=
  (@list_vehicles (list db_call) (recorder on_create on_get)
     builtin_str validation_error_str).

(** X13: the create handler calls the database at most once and never
    queries it. The calls recorded after a request are the calls recorded
    before it, followed by one [create_document("vehicle", record)] exactly
    when the uploads and the validation succeeded, whether that call returns
    or raises: nothing is retried. *)
Theorem create_calls_store_once mk md y p d images fs draws writes log :
  let w := mkWorld fs draws writes log in
  let calls := w_db (create mk md y p d images w).2 in
  match (uploads images w).1 with
  | inr urls =>
      match Vehicle_init mk md y p d urls with
      | inr v => calls = log ++ [CallCreate "vehicle" v]
      | inl _ => calls = log
      end
  | inl _ => calls = log
  end.
Proof.
  cbv zeta. rewrite create_vehicle_eq.
  pose proof (save_uploads_db cwd uuid4 disk validation_error_str images
                (mkWorld fs draws writes log)) as Hdb.
  destruct (uploads images _) as [[e|urls] w1]; cbn [fst snd w_db] in *;
    [done|].
  destruct (Vehicle_init mk md y p d urls) as [errors|v]; [done|].
  cbv zeta. rewrite Hdb. cbn [create_document recorder].
  by destruct (on_create (length log)).
Qed.

(** X14: the list handler makes exactly one call to the database, the query
    of the collection ["vehicle"] with an empty filter and no limit, and
    never inserts. *)
Theorem list_calls_store_once fs draws writes log :
  w_db (listing (mkWorld fs draws writes log)).2
  = log ++ [CallGet "vehicle" ∅ None].
Proof.
  rewrite list_vehicles_eq. cbv zeta. cbn [get_documents recorder w_db].
  by destruct (on_get (length log)).
Qed.

End CallFacts.

(** ** What is stored is what is listed *)

Section MoreSerializerFacts.
Variable builtin_str : pyval → string.

(** X15: the serializer undoes [model_dump]. For a stored document that
    holds the dump of a record, an [ObjectId] under [_id] and any other
    fields, the serialized listing has the make, model, year, price,
    description and image URLs of the record, the 24 hexadecimal digits of
    the identifier as [id], and the document's [created_at], null when it
    has none. *)
Theorem serialize_stored_record v o (doc : gmap string pyval) :
  model_dump v ⊆ doc →
  doc !! "_id" = Some (VObjectId o) →
  let out := serialize_vehicle builtin_str doc in
  out !! "id" = Some (VStr (oid_hex o)) ∧
  out !! "make" = Some (VStr (make v)) ∧
  out !! "model" = Some (VStr (model v)) ∧
  out !! "year" = Some (VInt (year v)) ∧
  out !! "price" = Some (VFloat (price v)) ∧
  out !! "description" = Some (opt_str (description v)) ∧
  out !! "image_urls" = Some (VList (VStr <$> image_urls v)) ∧
  out !! "created_at" = Some (default VNone (doc !! "created_at")).
Proof.
  intros Hsub Hid. cbv zeta.
  assert (∀ k x, model_dump v !! k = Some x → doc !! k = Some x) as Hdoc.
  { intros k x Hk. by eapply lookup_weaken. }
  split_and!.
  - rewrite serialize_id. unfold dict_get. rewrite Hid. reflexivity.
  - rewrite serialize_passed_through by repeat constructor.
    unfold dict_get. by rewrite (Hdoc "make" (VStr (make v))).
  - rewrite serialize_passed_through by repeat constructor.
    unfold dict_get. by rewrite (Hdoc "model" (VStr (model v))).
  - rewrite serialize_passed_through by repeat constructor.
    unfold dict_get. by rewrite (Hdoc "year" (VInt (year v))).
  - rewrite serialize_passed_through by repeat constructor.
    unfold dict_get. by rewrite (Hdoc "price" (VFloat (price v))).
  - rewrite serialize_passed_through by repeat constructor.
    unfold dict_get.
    by rewrite (Hdoc "description" (opt_str (description v))).
  - rewrite serialize_image_urls. unfold dict_get_default.
    by rewrite (Hdoc "image_urls" (VList (VStr <$> image_urls v))).
  - rewrite serialize_passed_through by repeat constructor. reflexivity.
Qed.

End MoreSerializerFacts.

(** ** The diagnostics endpoint *)

Section DiagnosticsFacts.

(** Reading the fields of a handle that is given by its fields. *)
Ltac reduce_handle :=
  cbv beta iota zeta delta [handle_name list_collection_names].

(** The handle is there and looking up its [name] raises no exception,
    whether the attribute exists or not. *)
Local Abbreviation reachable db d :=
  (db = Some d ∧ ∀ msg, handle_name d ≠ AttrRaises msg).

(** X16: the diagnostics response always has the same six keys and reports
    the backend as running; its [database_url] and [database_name] entries
    tell whether the environment variables [DATABASE_URL] and
    [DATABASE_NAME] are set to a non-empty text, and nothing else: what the
    handler wrote there from the database handle is overwritten. *)
Theorem diagnostics_report_environment db environ :
  let response := test_database db environ in
  dom response = list_to_set ["backend"; "database"; "database_url";
                              "database_name"; "connection_status";
                              "collections"] ∧
  response !! "backend" = Some (VStr "✅ Running") ∧
  response !! "database_url"
    = Some (VStr (if env_set environ "DATABASE_URL"
                  then "✅ Set" else "❌ Not Set")) ∧
  response !! "database_name"
    = Some (VStr (if env_set environ "DATABASE_NAME"
                  then "✅ Set" else "❌ Not Set")).
Proof.
  unfold test_database. cbv zeta. split_and!.
  - destruct db as [[[|v|msg] [msg'|names]]|]; reduce_handle;
      rewrite !dom_insert_L, dom_empty_L; set_solver.
  - destruct db as [[[|v|msg] [msg'|names]]|]; reduce_handle;
      by rewrite !lookup_insert_ne, lookup_insert_eq by done.
  - by rewrite lookup_insert_ne, lookup_insert_eq by done.
  - by rewrite lookup_insert_eq.
Qed.

Lemma diagnostics_collections_value db environ :
  test_database db environ !! "collections"
  = Some (VList (VStr <$>
      match db with
      | Some d =>
          match handle_name d, list_collection_names d with
          | AttrRaises _, _ | _, inl _ => []
          | _, inr all => take 10 all
          end
      | None => []
      end)).
Proof.
  unfold test_database. cbv zeta.
  destruct db as [[[|v|msg] [msg'|all]]|]; reduce_handle;
    by rewrite !lookup_insert_ne, lookup_insert_eq by done.
Qed.

(** X17: the [collections] entry lists at most ten names. It holds the
    first ten names returned by [list_collection_names()] when the handle
    is there, looking up its name raises no exception (the attribute may be
    missing) and the listing succeeds, and it is empty in every other
    case. *)
Theorem diagnostics_collections db environ :
  ∃ names : list string,
    test_database db environ !! "collections" = Some (VList (VStr <$> names)) ∧
    (length names ≤ 10)%nat ∧
    (∀ d all, reachable db d → list_collection_names d = inr all →
              names = take 10 all) ∧
    (names ≠ [] →
     ∃ d all, reachable db d ∧ list_collection_names d = inr all).
Proof.
  eexists. split; [apply diagnostics_collections_value|].
  destruct db as [[nm lst]|]; cbn [handle_name list_collection_names].
  - destruct nm as [|v|msg], lst as [msg'|all]; cbv beta iota.
    + split_and!; [cbn; lia| |done].
      intros d all' [[= <-] _] Hlist. discriminate Hlist.
    + split_and!; [rewrite length_take; lia| |].
      * intros d all' [[= <-] _] Hlist. cbn in Hlist. congruence.
      * intros _. eexists _, all. by split_and!.
    + split_and!; [cbn; lia| |done].
      intros d all' [[= <-] _] Hlist. discriminate Hlist.
    + split_and!; [rewrite length_take; lia| |].
      * intros d all' [[= <-] _] Hlist. cbn in Hlist. congruence.
      * intros _. eexists _, all. by split_and!.
    + split_and!; [cbn; lia| |done].
      intros d all' [[= <-] Hname]. by destruct (Hname msg).
    + split_and!; [cbn; lia| |done].
      intros d all' [[= <-] Hname]. by destruct (Hname msg).
  - split_and!; [cbn; lia| |done]. by intros d all [[=] _].
Qed.

(** X18: the [connection_status] entry is ["Connected"] exactly when the
    handle is there and looking up its name raises no exception (the
    attribute may be missing); the [database] entry announces a working
    connection exactly when, moreover, the collections could be listed; and
    the entry never keeps its initial value. *)
Theorem diagnostics_status db environ :
  let response := test_database db environ in
  (response !! "connection_status" = Some (VStr "Connected") ↔
   ∃ d, reachable db d) ∧
  (response !! "database" = Some (VStr "✅ Connected & Working") ↔
   ∃ d all, reachable db d ∧ list_collection_names d = inr all) ∧
  response !! "database" ≠ Some (VStr "❌ Not Available").
Proof.
  unfold test_database. cbv zeta.
  destruct db as [[[|v|msg] [msg'|all]]|]; reduce_handle;
    rewrite !(lookup_insert_ne _ "database_name"),
            !(lookup_insert_ne _ "database_url") by done;
    rewrite ?lookup_insert_eq;
    rewrite ?(lookup_insert_ne _ "database" "connection_status"),
            ?(lookup_insert_ne _ "collections" "database"),
            ?(lookup_insert_ne _ "collections" "connection_status"),
            ?(lookup_insert_ne _ "connection_status" "database"),
            ?(lookup_insert_ne _ "database_name" "database"),
            ?(lookup_insert_ne _ "database_name" "connection_status"),
            ?(lookup_insert_ne _ "database_url" "database"),
            ?(lookup_insert_ne _ "database_url" "connection_status"),
            ?lookup_insert_eq by done;
    (split_and!;
     [ split;
       [ intros Hc; first [ discriminate Hc | eexists; split; done ]
       | intros (d & [= <-] & Hname); first [ done | by destruct (Hname msg) ] ]
     | split;
       [ intros Hc; first [ discriminate Hc | eexists _, _; split_and!; done ]
       | intros (d & all' & [[= <-] Hname] & Hlist); cbn in *;
         first [ done | congruence | by destruct (Hname msg) ] ]
     | discriminate ]).
Qed.

End DiagnosticsFacts.

(** ** The further statements at concrete inputs *)

(** The prices 0, -0.5 and +infinity with the year 2020. *)
Lemma price_non_negative_witness :
  Vehicle_init "Toyota" "Corolla" 2020 0%float None []
  = inr (mkVehicle "Toyota" "Corolla" 2020 0%float None []) ∧
  Vehicle_init "Toyota" "Corolla" 2020 PrimFloat.infinity None []
  = inr (mkVehicle "Toyota" "Corolla" 2020 PrimFloat.infinity None []) ∧
  Vehicle_init "Toyota" "Corolla" 2020 (-0.5)%float None []
  ≠ inr (mkVehicle "Toyota" "Corolla" 2020 (-0.5)%float None []).
Proof.
  split_and!.
  - apply (price_non_negative "Toyota" "Corolla" 2020 0%float None []);
      [lia|reflexivity|reflexivity].
  - apply (price_non_negative
             "Toyota" "Corolla" 2020 PrimFloat.infinity None []);
      [lia|reflexivity|reflexivity].
  - intros Hok.
    apply (price_non_negative "Toyota" "Corolla" 2020 (-0.5)%float None [])
      in Hok; [discriminate Hok|lia|reflexivity].
Defined.

(** A product priced at zero, with the optional fields omitted. *)
Lemma product_price_non_negative_witness :
  ProductModel.Product_init "Wax" None 0%float "care" None
  = inr (ProductModel.mkProduct "Wax" None 0%float "care" true).
Proof.
  apply (product_price_non_negative "Wax" None 0%float "care" None);
    [reflexivity|]. split; reflexivity.
Defined.

(** The year 1899 with the price -1. *)
Lemma validation_errors_name_invalid_fields_witness :
  ((∃ t, mkError "year" t
         ∈ [mkError "year" greater_than_equal;
            mkError "price" greater_than_equal]) ↔
   ¬ (1900 ≤ 1899 ≤ 2100)%Z) ∧
  ((∃ t, mkError "price" t
         ∈ [mkError "year" greater_than_equal;
            mkError "price" greater_than_equal]) ↔
   PrimFloat.leb 0%float (-1)%float = false) ∧
  (∀ e, e ∈ [mkError "year" greater_than_equal;
             mkError "price" greater_than_equal] →
        loc e = "year" ∨ loc e = "price") ∧
  (0 < 2 ≤ 2)%nat.
Proof.
  apply (validation_errors_name_invalid_fields
           "Toyota" "Corolla" 1899 (-1)%float None []).
  reflexivity.
Defined.

(** Two uploads, the second one without a file name. *)
Lemma upload_counters_witness :
  let out := Sample.create Sample.disk_ok "Toyota" "Corolla" 2020 15000%float
               None (Some [Sample.photo "A.jpg"; mkUpload None Sample.jpeg])
               Sample.world in
  w_writes out.2 = 2 ∧ w_draws out.2 = 3.
Proof.
  destruct (upload_counters
              (DB:=Mongo) Sample.cwd Sample.uuid4 Sample.disk_ok
              Sample.validation_error_str
              (Some [Sample.photo "A.jpg"; mkUpload None Sample.jpeg])
              Sample.world
              (Sample.save_images Sample.disk_ok
                 [Sample.photo "A.jpg"; mkUpload None Sample.jpeg] []
                 Sample.world).2
              ["/uploads/00000000000000000000000000000000.jpg";
               "/uploads/00000000000000000000000000000002.jpg"])
    as (_ & Hwrites & Hdraws & _).
  - vm_compute. reflexivity.
  - cbv zeta. split; [exact Hwrites|exact Hdraws].
Defined.

(** An upload named after a file outside the upload directory. *)
Lemma writes_stay_in_upload_dir_witness :
  w_fs (Sample.create Sample.disk_ok "Toyota" "Corolla" 2020 15000%float None
          (Some [Sample.photo "../../etc/passwd"]) Sample.world).2
    !! "/etc/passwd"
  = (∅ : gmap string (list Byte.byte)) !! "/etc/passwd".
Proof.
  apply (writes_stay_in_upload_dir
           (DB:=Mongo) (Database0:=Sample.mongo)
           Sample.cwd Sample.uuid4 Sample.disk_ok Sample.validation_error_str
           "Toyota" "Corolla" 2020 15000%float None
           (Some [Sample.photo "../../etc/passwd"]) Sample.world
           "/etc/passwd").
  intros name _. vm_compute. discriminate.
Defined.

(** Three uploads with the same file name. *)
Lemma distinct_tokens_keep_every_file_witness :
  NoDup ["/uploads/00000000000000000000000000000000.jpg";
         "/uploads/00000000000000000000000000000001.jpg";
         "/uploads/00000000000000000000000000000002.jpg"] ∧
  ∃ name,
    ["/uploads/00000000000000000000000000000000.jpg";
     "/uploads/00000000000000000000000000000001.jpg";
     "/uploads/00000000000000000000000000000002.jpg"] !! 1
    = Some ("/uploads/" +:+ name) ∧
    w_fs (Sample.save_images Sample.disk_ok
            [Sample.photo "car.jpg"; Sample.photo "car.jpg";
             Sample.photo "car.jpg"] [] Sample.world).2
      !! (UPLOAD_DIR Sample.cwd +:+ "/" +:+ name)
    = Some Sample.jpeg.
Proof.
  destruct (distinct_tokens_keep_every_file
              (DB:=Mongo) Sample.cwd Sample.uuid4 Sample.disk_ok
              Sample.validation_error_str
              [Sample.photo "car.jpg"; Sample.photo "car.jpg";
               Sample.photo "car.jpg"]
              Sample.world
              (mkWorld
                 (w_fs (Sample.save_images Sample.disk_ok
                          [Sample.photo "car.jpg"; Sample.photo "car.jpg";
                           Sample.photo "car.jpg"] [] Sample.world).2)
                 3 3 empty_db)
              ["/uploads/00000000000000000000000000000000.jpg";
               "/uploads/00000000000000000000000000000001.jpg";
               "/uploads/00000000000000000000000000000002.jpg"])
    as [Hnodup Hfiles].
  - vm_compute. reflexivity.
  - intros i j Hij Hj. cbn [w_draws Sample.world] in *.
    destruct i as [|[|i]], j as [|[|[|j]]]; try lia; vm_compute; discriminate.
  - split; [exact Hnodup|].
    exact (Hfiles 1 (Sample.photo "car.jpg") eq_refl).
Defined.

(** A valid listing with one upload, on a store that is down. *)
Lemma insert_failure_reported_witness :
  let out := @create_vehicle Mongo Sample.mongo Sample.cwd Sample.uuid4
               Sample.disk_ok Sample.validation_error_str
               "Toyota" "Corolla" 2020 15000%float None
               (Some [Sample.photo "A.jpg"])
               (mkWorld ∅ 0 0 (mkMongo (Some "connection refused") ∅ 0)) in
  out.1 = inl (HTTPException 500 "connection refused") ∧
  w_fs out.2
  = {["/srv/app/uploads/00000000000000000000000000000000.jpg" := Sample.jpeg]}.
Proof.
  destruct (insert_failure_reported
              (DB:=Mongo) (Database0:=Sample.mongo)
              Sample.cwd Sample.uuid4 Sample.disk_ok
              Sample.validation_error_str
              "Toyota" "Corolla" 2020 15000%float None
              (Some [Sample.photo "A.jpg"])
              (mkWorld ∅ 0 0 (mkMongo (Some "connection refused") ∅ 0))
              (mkWorld
                 {["/srv/app/uploads/00000000000000000000000000000000.jpg"
                   := Sample.jpeg]}
                 1 1 (mkMongo (Some "connection refused") ∅ 0))
              ["/uploads/00000000000000000000000000000000.jpg"]
              "connection refused"
              (mkMongo (Some "connection refused") ∅ 0))
    as (Hout & Hfs & _).
  - vm_compute. reflexivity.
  - reflexivity.
  - lia.
  - reflexivity.
  - cbv zeta. split; [exact Hout|exact Hfs].
Defined.

(** One upload with the year 1899. *)
Lemma invalid_listing_keeps_uploads_witness :
  (∃ errors,
     Sample.create Sample.disk_ok "Toyota" "Corolla" 1899 15000%float None
       (Some [Sample.photo "A.jpg"]) Sample.world
     = (inl (ValidationError errors),
        mkWorld
          {["/srv/app/uploads/00000000000000000000000000000000.jpg"
            := Sample.jpeg]} 1 1 empty_db)) ∧
  1 = 0 + length [Sample.photo "A.jpg"].
Proof.
  apply (invalid_listing_keeps_uploads
           (DB:=Mongo) (Database0:=Sample.mongo)
           Sample.cwd Sample.uuid4 Sample.disk_ok Sample.validation_error_str
           "Toyota" "Corolla" 1899 15000%float None
           (Some [Sample.photo "A.jpg"]) Sample.world
           (mkWorld
              {["/srv/app/uploads/00000000000000000000000000000000.jpg"
                := Sample.jpeg]} 1 1 empty_db)
           ["/uploads/00000000000000000000000000000000.jpg"]).
  - vm_compute. reflexivity.
  - lia.
Defined.

(** Listing on a store that is down. *)
Lemma list_failure_reported_witness :
  (Sample.listing (mkWorld ∅ 0 0 (mkMongo (Some "connection refused") ∅ 0))).1
  = inl (HTTPException 500 "connection refused").
Proof.
  apply (list_failure_reported
           (DB:=Mongo) (Database0:=Sample.mongo)
           Sample.builtin_str Sample.validation_error_str
           (mkWorld ∅ 0 0 (mkMongo (Some "connection refused") ∅ 0))
           "connection refused" (mkMongo (Some "connection refused") ∅ 0)).
  reflexivity.
Defined.

(** The response to a valid listing without uploads. *)
Lemma create_response_shape_witness :
  ∃ body,
    (Sample.create Sample.disk_ok "Toyota" "Corolla" 2020 15000%float None None
       Sample.world).1 = inr body ∧
    body !! "description" = Some VNone ∧
    body !! "created_at" = None.
Proof.
  pose (body := model_dump (mkVehicle "Toyota" "Corolla" 2020 15000%float
                                      None [])
                ∪ {["id" := VStr "000000000000000000000000"]}).
  destruct (create_response_shape
              (DB:=Mongo) (Database0:=Sample.mongo)
              Sample.cwd Sample.uuid4 Sample.disk_ok
              Sample.validation_error_str
              "Toyota" "Corolla" 2020 15000%float None None Sample.world
              (Sample.create Sample.disk_ok "Toyota" "Corolla" 2020
                 15000%float None None Sample.world).2
              body)
    as (Hdom & _ & _ & _ & _ & Hdescription & _).
  - vm_compute. reflexivity.
  - exists body. split_and!; [vm_compute; reflexivity|exact Hdescription|].
    apply not_elem_of_dom. rewrite Hdom. vm_compute. set_solver.
Defined.

(** A stored document with a creation time and one more field. *)
Lemma serialize_stored_record_witness :
  let v := mkVehicle "Toyota" "Corolla" 2020 15000%float None
                     ["/uploads/00000000000000000000000000000000.jpg"] in
  let doc := <["_id" := VObjectId (mkObjectId 10)]>
             (<["created_at" := VDatetime 0]>
             (<["updated_at" := VDatetime 0]> (model_dump v))) in
  let out := serialize_vehicle Sample.builtin_str doc in
  out !! "id" = Some (VStr "00000000000000000000000a") ∧
  out !! "make" = Some (VStr "Toyota") ∧
  out !! "image_urls"
    = Some (VList [VStr "/uploads/00000000000000000000000000000000.jpg"]) ∧
  out !! "created_at" = Some (VDatetime 0).
Proof.
  intros v doc.
  destruct (serialize_stored_record Sample.builtin_str v (mkObjectId 10) doc)
    as (Hid & Hmake & _ & _ & _ & _ & Hurls & Hcreated).
  - unfold doc. repeat (apply insert_subseteq_r; [reflexivity|]). reflexivity.
  - reflexivity.
  - cbv zeta. split_and!; [exact Hid|exact Hmake|exact Hurls|exact Hcreated].
Defined.

(** A handle without a [name] attribute whose collections can be listed. *)
Lemma diagnostics_collections_witness :
  test_database (Some (mkHandle NoAttr (inr ["vehicle"; "user"]))) ∅
    !! "collections"
  = Some (VList [VStr "vehicle"; VStr "user"]).
Proof.
  destruct (diagnostics_collections
              (Some (mkHandle NoAttr (inr ["vehicle"; "user"]))) ∅)
    as (names & Hvalue & _ & Hworking & _).
  rewrite Hvalue.
  rewrite (Hworking (mkHandle NoAttr (inr ["vehicle"; "user"]))
                    ["vehicle"; "user"]); [reflexivity| |reflexivity].
  split; [reflexivity|discriminate].
Defined.

(** The same handle, and a handle whose name raises. *)
Lemma diagnostics_status_witness :
  test_database (Some (mkHandle NoAttr (inr ["vehicle"; "user"]))) ∅
    !! "connection_status" = Some (VStr "Connected") ∧
  test_database (Some (mkHandle (AttrRaises "boom") (inr ["vehicle"]))) ∅
    !! "connection_status" ≠ Some (VStr "Connected").
Proof.
  split.
  - apply (diagnostics_status
             (Some (mkHandle NoAttr (inr ["vehicle"; "user"]))) ∅).
    eexists. split; [reflexivity|discriminate].
  - intros Hconnected.
    apply (diagnostics_status
             (Some (mkHandle (AttrRaises "boom") (inr ["vehicle"]))) ∅)
      in Hconnected as (d & [= <-] & Hname).
    by apply (Hname "boom").
Defined.
